(** * Constellation shared types: the Zod contracts and their parsing behaviour

    The repository is a package of Zod (version 3) schemas plus two type
    guards.  A schema is data: a tree of Zod combinators.  This development
    embeds

    - JavaScript values as they reach [safeParse] ([JS.value]),
    - the Zod combinators the package uses, as an inductive [z.ZodType]
      together with the interpreter [z.safeParse] that follows Zod 3's
      [_parse] methods (type test, then every check, issues collected),
    - each schema of the package as the same combinator chain the source
      writes, under the source's name,

    and then proves what the contracts accept, reject and default. *)

From Stdlib Require Import ZArith QArith Bool List Ascii String Lia.
Import ListNotations.

Set Warnings "-register-all".

Local Open Scope Z_scope.
Local Open Scope string_scope.

(* ================================================================= *)
(** ** JavaScript values *)

Module JS.

(** A JavaScript number: a finite double is a rational, which is all
    that [Number.isInteger] and the comparisons with the integer bounds
    of the schemas look at. *)
Inductive number : Type :=
| NaN
| Infinity (negative : bool)
| Finite (q : Q).

Inductive value : Type :=
| VUndefined
| VNull
| VBool (b : bool)
| VNum (n : number)
| VStr (s : string)
| VArr (items : list value)
| VObj (props : list (string * value)).

(** Own properties in insertion order; the first binding of a key is the
    one a property read sees. *)
Definition object : Type := list (string * value).

Fixpoint lookup (o : object) (key : string) : option value :=
  match o with
  | [] => None
  | (k, v) :: rest => if String.eqb key k then Some v else lookup rest key
  end.

(** [o[key]]: reading an absent property gives [undefined]. *)
Definition get (o : object) (key : string) : value :=
  match lookup o key with
  | Some v => v
  | None => VUndefined
  end.

(** [key in o] *)
Definition has (o : object) (key : string) : bool :=
  match lookup o key with
  | Some _ => true
  | None => false
  end.

(** [Object.keys(o)] (with the shadowed bindings an association list may
    carry). *)
Definition keys (o : object) : list string := map fst o.

Definition of_Z (n : Z) : number := Finite (inject_Z n).

(** An integer literal of the source, as a value. *)
Definition num (n : Z) : value := VNum (of_Z n).

Definition isNaN (x : number) : bool :=
  match x with
  | NaN => true
  | _ => false
  end.

(** [Number.isInteger(x)] *)
Definition isInteger (x : number) : bool :=
  match x with
  | Finite q => (Qnum q mod Zpos (Qden q) =? 0)%Z
  | _ => false
  end.

(** [x < y] *)
Definition ltb (x y : number) : bool :=
  match x, y with
  | Finite a, Finite b => negb (Qle_bool b a)
  | Infinity true, Finite _ => true
  | Infinity true, Infinity false => true
  | Finite _, Infinity false => true
  | _, _ => false
  end.

(** [x <= y] *)
Definition leb (x y : number) : bool :=
  match x, y with
  | Finite a, Finite b => Qle_bool a b
  | Infinity true, Finite _ => true
  | Infinity true, Infinity _ => true
  | Finite _, Infinity false => true
  | Infinity false, Infinity false => true
  | _, _ => false
  end.

(** [a === b].  Two objects or arrays are equal only when they are the
    same reference, which a literal written in a schema never is. *)
Definition strictEquals (a b : value) : bool :=
  match a, b with
  | VUndefined, VUndefined => true
  | VNull, VNull => true
  | VBool x, VBool y => Bool.eqb x y
  | VStr x, VStr y => String.eqb x y
  | VNum (Finite x), VNum (Finite y) => Qeq_bool x y
  | VNum (Infinity x), VNum (Infinity y) => Bool.eqb x y
  | _, _ => false
  end.

Definition isUndefined (v : value) : bool :=
  match v with
  | VUndefined => true
  | _ => false
  end.

(** The property names a [for (key in o)] loop visits: each key once, at
    its first binding. *)
Fixpoint ownKeys (o : object) : list string :=
  match o with
  | [] => []
  | (k, _) :: rest => k :: filter (fun k' => negb (String.eqb k' k)) (ownKeys rest)
  end.

End JS.

Import JS.

(* ================================================================= *)
(** ** The Zod combinators used by the package *)

Module z.

Inductive ZodIssueCode : Type :=
| invalid_type
| invalid_literal
| invalid_enum_value
| unrecognized_keys
| too_small
| too_big.

(** [ZodNumber]'s checks: [{kind: "int"}], [{kind: "min", value,
    inclusive}], [{kind: "max", value, inclusive}]. *)
Inductive ZodNumberCheck : Type :=
| NumInt
| NumMin (value : Z) (inclusive : bool)
| NumMax (value : Z) (inclusive : bool).

(** [ZodString]'s checks on [length]. *)
Inductive ZodStringCheck : Type :=
| StrMin (value : nat)
| StrMax (value : nat).

Inductive UnknownKeysParam : Type :=
| strip
| strict_keys.

Inductive ZodType : Type :=
| ZodString (checks : list ZodStringCheck)
| ZodNumber (checks : list ZodNumberCheck)
| ZodBoolean
| ZodLiteral (value : JS.value)
| ZodEnum (values : list string)
| ZodArray (element : ZodType)
| ZodObject (shape : list (string * ZodType)) (unknownKeys : UnknownKeysParam)
| ZodOptional (innerType : ZodType)
| ZodDefault (innerType : ZodType) (defaultValue : JS.value).

Inductive SafeParseReturn : Type :=
| Success (data : JS.value)
| Failure (issues : list ZodIssueCode).

(** One number check: the issue it adds, if any. *)
Definition numberCheck (x : number) (c : ZodNumberCheck) : list ZodIssueCode :=
  match c with
  | NumInt => if isInteger x then [] else [invalid_type]
  | NumMin value inclusive =>
      let tooSmall :=
        if inclusive then JS.ltb x (of_Z value) else JS.leb x (of_Z value) in
      if tooSmall then [too_small] else []
  | NumMax value inclusive =>
      let tooBig :=
        if inclusive then JS.ltb (of_Z value) x else JS.leb (of_Z value) x in
      if tooBig then [too_big] else []
  end.

Definition stringCheck (s : string) (c : ZodStringCheck) : list ZodIssueCode :=
  match c with
  | StrMin value => if (String.length s <? value)%nat then [too_small] else []
  | StrMax value => if (value <? String.length s)%nat then [too_big] else []
  end.

(** A parse is a success exactly when no issue was recorded. *)
Definition finish (issues : list ZodIssueCode) (data : JS.value) : SafeParseReturn :=
  match issues with
  | [] => Success data
  | _ => Failure issues
  end.

Definition issuesOf (r : SafeParseReturn) : list ZodIssueCode :=
  match r with
  | Success _ => []
  | Failure issues => issues
  end.

(** [ParseStatus.mergeArray]: the parsed items, or every issue. *)
Definition mergeArray (results : list SafeParseReturn) : SafeParseReturn :=
  finish (flat_map issuesOf results)
         (VArr (flat_map (fun r => match r with
                                   | Success d => [d]
                                   | Failure _ => []
                                   end) results)).

(** One entry of [pairs] in [ZodObject._parse]: the key, the result of
    the key's validator on [data[key]], and [alwaysSet = key in data]. *)
Definition ObjectPair : Type := (string * SafeParseReturn * bool)%type.

(** [ParseStatus.mergeObjectSync]: a parsed key is written to the result
    when its value is defined or the key was present in the input. *)
Definition finalObject (pairs : list ObjectPair) : JS.object :=
  flat_map (fun p : ObjectPair =>
              match p with
              | (key, Success d, alwaysSet) =>
                  if negb (isUndefined d) || alwaysSet then [(key, d)] else []
              | (_, Failure _, _) => []
              end) pairs.

Definition pairIssues (pairs : list ObjectPair) : list ZodIssueCode :=
  flat_map (fun p : ObjectPair => issuesOf (snd (fst p))) pairs.

(** The keys of the input that the shape does not know. *)
Definition extraKeys (shapeKeys : list string) (data : JS.object) : list string :=
  filter (fun key => negb (existsb (String.eqb key) shapeKeys)) (keys data).

Definition unknownKeyIssues (unknownKeys : UnknownKeysParam)
    (shapeKeys : list string) (data : JS.object) : list ZodIssueCode :=
  match unknownKeys with
  | strict_keys =>
      match extraKeys shapeKeys data with
      | [] => []
      | _ => [unrecognized_keys]
      end
  | strip => []
  end.

Fixpoint safeParse (schema : ZodType) (input : JS.value) : SafeParseReturn :=
  match schema with
  | ZodString checks =>
      match input with
      | VStr s => finish (flat_map (stringCheck s) checks) input
      | _ => Failure [invalid_type]
      end
  | ZodNumber checks =>
      match input with
      | VNum x =>
          if isNaN x then Failure [invalid_type]
          else finish (flat_map (numberCheck x) checks) input
      | _ => Failure [invalid_type]
      end
  | ZodBoolean =>
      match input with
      | VBool _ => Success input
      | _ => Failure [invalid_type]
      end
  | ZodLiteral value =>
      if strictEquals input value then Success input
      else Failure [invalid_literal]
  | ZodEnum values =>
      match input with
      | VStr s =>
          if existsb (String.eqb s) values then Success input
          else Failure [invalid_enum_value]
      | _ => Failure [invalid_type]
      end
  | ZodArray element =>
      match input with
      | VArr items => mergeArray (map (safeParse element) items)
      | _ => Failure [invalid_type]
      end
  | ZodObject shape unknownKeys =>
      match input with
      | VObj data =>
          let pairs :=
            map (fun entry : string * ZodType =>
                   (fst entry, safeParse (snd entry) (get data (fst entry)),
                    has data (fst entry))) shape in
          finish (pairIssues pairs
                  ++ unknownKeyIssues unknownKeys (map fst shape) data)
                 (VObj (finalObject pairs))
      | _ => Failure [invalid_type]
      end
  | ZodOptional innerType =>
      match input with
      | VUndefined => Success VUndefined
      | _ => safeParse innerType input
      end
  | ZodDefault innerType defaultValue =>
      match input with
      | VUndefined => safeParse innerType defaultValue
      | _ => safeParse innerType input
      end
  end.

(** *** The builder methods, as the source chains them *)

Definition number : ZodType := ZodNumber [].
Definition boolean : ZodType := ZodBoolean.
Definition literal (value : JS.value) : ZodType := ZodLiteral value.
Definition enum (values : list string) : ZodType := ZodEnum values.
Definition array (element : ZodType) : ZodType := ZodArray element.
Definition object (shape : list (string * ZodType)) : ZodType :=
  ZodObject shape strip.

Definition int (t : ZodType) : ZodType :=
  match t with
  | ZodNumber checks => ZodNumber (checks ++ [NumInt])
  | _ => t
  end.

Definition positive (t : ZodType) : ZodType :=
  match t with
  | ZodNumber checks => ZodNumber (checks ++ [NumMin 0 false])
  | _ => t
  end.

Definition nonnegative (t : ZodType) : ZodType :=
  match t with
  | ZodNumber checks => ZodNumber (checks ++ [NumMin 0 true])
  | _ => t
  end.

Definition min (value : Z) (t : ZodType) : ZodType :=
  match t with
  | ZodNumber checks => ZodNumber (checks ++ [NumMin value true])
  | ZodString checks => ZodString (checks ++ [StrMin (Z.to_nat value)])
  | _ => t
  end.

Definition max (value : Z) (t : ZodType) : ZodType :=
  match t with
  | ZodNumber checks => ZodNumber (checks ++ [NumMax value true])
  | ZodString checks => ZodString (checks ++ [StrMax (Z.to_nat value)])
  | _ => t
  end.

Definition strict (t : ZodType) : ZodType :=
  match t with
  | ZodObject shape _ => ZodObject shape strict_keys
  | _ => t
  end.

Definition optional (t : ZodType) : ZodType := ZodOptional t.
Definition default (defaultValue : JS.value) (t : ZodType) : ZodType :=
  ZodDefault t defaultValue.

(** [base.extend(augmentation)]: the shape [{...base.shape,
    ...augmentation}].  A key the base already has keeps its place and
    takes the augmentation's validator; the new keys follow in order. *)
Definition extend (augmentation : list (String.string * ZodType)) (t : ZodType)
    : ZodType :=
  match t with
  | ZodObject shape unknownKeys =>
      ZodObject
        (map (fun entry : String.string * ZodType =>
                match find (fun a => String.eqb (fst a) (fst entry)) augmentation with
                | Some a => (fst entry, snd a)
                | None => entry
                end) shape
         ++ filter (fun a : String.string * ZodType =>
                      negb (existsb (String.eqb (fst a)) (map fst shape)))
              augmentation)
        unknownKeys
  | _ => t
  end.

Definition string : ZodType := ZodString [].

End z.

(** [t |> m] is the method call [t.m()]. *)
Notation "t |> m" := (m t) (at level 45, left associativity, only parsing).

(* ================================================================= *)
(** ** [any], [nullable] and [record]

    The remaining combinators of the package, over the schemas of [z]:
    a schema of [zx] is a schema of [z] ([zx.core]), or is built with
    [z.any()], [.nullable()], [.optional()], [z.record(keyType, valueType)]
    or [z.object({...})] around such schemas. *)

Module zx.

Inductive ZodType : Type :=
| core (schema : z.ZodType)
| ZodAny
| ZodNullable (innerType : ZodType)
| ZodOptional (innerType : ZodType)
| ZodRecord (keyType : z.ZodType) (valueType : ZodType)
| ZodObject (shape : list (string * ZodType)) (unknownKeys : z.UnknownKeysParam).

(** One entry of [pairs] in [ZodRecord._parse]: the parsed key and the
    parsed value ([alwaysSet] is true for each). *)
Definition RecordPair : Type := (z.SafeParseReturn * z.SafeParseReturn)%type.

Definition recordIssues (pairs : list RecordPair) : list z.ZodIssueCode :=
  flat_map (fun p : RecordPair => (z.issuesOf (fst p) ++ z.issuesOf (snd p))%list)
    pairs.

Definition recordObject (pairs : list RecordPair) : JS.object :=
  flat_map (fun p : RecordPair =>
              match p with
              | (z.Success (VStr key), z.Success d) => [(key, d)]
              | _ => []
              end) pairs.

Fixpoint safeParse (schema : ZodType) (input : JS.value) : z.SafeParseReturn :=
  match schema with
  | core t => z.safeParse t input
  | ZodAny => z.Success input
  | ZodNullable innerType =>
      match input with
      | VNull => z.Success VNull
      | _ => safeParse innerType input
      end
  | ZodOptional innerType =>
      match input with
      | VUndefined => z.Success VUndefined
      | _ => safeParse innerType input
      end
  | ZodRecord keyType valueType =>
      match input with
      | VObj data =>
          let pairs :=
            map (fun key =>
                   (z.safeParse keyType (VStr key),
                    safeParse valueType (get data key))) (ownKeys data) in
          z.finish (recordIssues pairs) (VObj (recordObject pairs))
      | _ => z.Failure [z.invalid_type]
      end
  | ZodObject shape unknownKeys =>
      match input with
      | VObj data =>
          let pairs :=
            map (fun entry : string * ZodType =>
                   (fst entry, safeParse (snd entry) (get data (fst entry)),
                    has data (fst entry))) shape in
          z.finish (z.pairIssues pairs
                    ++ z.unknownKeyIssues unknownKeys (map fst shape) data)
                   (VObj (z.finalObject pairs))
      | _ => z.Failure [z.invalid_type]
      end
  end.

Definition any : ZodType := ZodAny.
Definition nullable (t : ZodType) : ZodType := ZodNullable t.
Definition optional (t : ZodType) : ZodType := ZodOptional t.
Definition record (keyType : z.ZodType) (valueType : ZodType) : ZodType :=
  ZodRecord keyType valueType.
Definition object (shape : list (string * ZodType)) : ZodType :=
  ZodObject shape z.strip.

End zx.

(* ================================================================= *)
(** ** Regular expression literals

    The patterns of the package use literal characters, [.], [^], [$],
    concatenation, [|], [*] and [?], without flags.  [re.test r s] is
    [r.test(s)]: whether the pattern matches somewhere in [s]. *)

Module re.

Inductive RegExp : Type :=
| Lit (chars : string)
| Dot
| Bos
| Eos
| Seq (a b : RegExp)
| Alt (a b : RegExp)
| Star (a : RegExp)
| Opt (a : RegExp).

(** A matcher state: whether the position is the start of the input, and
    the input that remains. *)
Definition State : Type := (bool * string)%type.

Fixpoint stripPrefix (p s : string) : option string :=
  match p with
  | EmptyString => Some s
  | String c p' =>
      match s with
      | String d s' => if Ascii.eqb c d then stripPrefix p' s' else None
      | EmptyString => None
      end
  end.

Definition isEmpty (s : string) : bool :=
  match s with
  | EmptyString => true
  | _ => false
  end.

(** [.] does not match a line terminator (of those, line feed and
    carriage return are characters of [string]). *)
Definition isLineTerminator (c : Ascii.ascii) : bool :=
  Ascii.eqb c "010"%char || Ascii.eqb c "013"%char.

(** [a*]: any number of iterations of [a], each of which consumes input. *)
Fixpoint starLoop (step : State -> list State) (n : nat) (st : State)
    : list State :=
  match n with
  | O => [st]
  | S n' =>
      (flat_map (fun st' : State =>
                   if (String.length (snd st') <? String.length (snd st))%nat
                   then starLoop step n' st'
                   else []) (step st)
       ++ [st])%list
  end.

(** The states in which a match of [r] begun in [st] can end. *)
Fixpoint run (r : RegExp) (st : State) : list State :=
  match r with
  | Lit chars =>
      match stripPrefix chars (snd st) with
      | Some rest => [(fst st && isEmpty chars, rest)]
      | None => []
      end
  | Dot =>
      match snd st with
      | String c rest => if isLineTerminator c then [] else [(false, rest)]
      | EmptyString => []
      end
  | Bos => if fst st then [st] else []
  | Eos => if isEmpty (snd st) then [st] else []
  | Seq a b => flat_map (run b) (run a st)
  | Alt a b => (run a st ++ run b st)%list
  | Star a => starLoop (run a) (String.length (snd st)) st
  | Opt a => (run a st ++ [st])%list
  end.

Definition matchesAt (r : RegExp) (st : State) : bool :=
  match run r st with
  | [] => false
  | _ => true
  end.

(** Try each start position from the left. *)
Fixpoint testFrom (r : RegExp) (atStart : bool) (s : string) : bool :=
  matchesAt r (atStart, s)
  || match s with
     | String _ rest => testFrom r false rest
     | EmptyString => false
     end.

(** [r.test(s)] *)
Definition test (r : RegExp) (s : string) : bool := testFrom r true s.

(** A concatenation and an alternation of several terms. *)
Fixpoint seq (rs : list RegExp) : RegExp :=
  match rs with
  | [] => Lit ""
  | [r] => r
  | r :: rest => Seq r (seq rest)
  end.

Fixpoint alt (rs : list RegExp) : RegExp :=
  match rs with
  | [] => Lit ""
  | [r] => r
  | r :: rest => Alt r (alt rest)
  end.

End re.

(* ================================================================= *)
(** ** src/common.schema.ts *)

Module common.

Definition paginationMetadataSchema : z.ZodType :=
  z.object
    [ ("total", z.number |> z.int |> z.nonnegative);
      ("returned", z.number |> z.int |> z.nonnegative);
      ("hasMore", z.boolean);
      ("nextOffset", z.number |> z.int |> z.nonnegative |> z.optional);
      ("currentOffset", z.number |> z.int |> z.nonnegative |> z.optional) ].

Definition symbolKindCategorySchema : z.ZodType :=
  z.enum
    [ "function"; "class"; "interface"; "type"; "variable"; "constant";
      "enum"; "module"; "namespace"; "method"; "property"; "parameter";
      "constructor"; "decorator"; "trait"; "struct"; "macro"; "unknown" ].

Definition riskLevelSchema : z.ZodType :=
  z.enum [ "low"; "medium"; "high"; "critical" ].

Definition fileLocationSchema : z.ZodType :=
  z.object
    [ ("filePath", z.string);
      ("line", z.number |> z.int |> z.positive |> z.optional);
      ("lineStart", z.number |> z.int |> z.positive |> z.optional);
      ("lineEnd", z.number |> z.int |> z.positive |> z.optional);
      ("column", z.number |> z.int |> z.nonnegative |> z.optional) ].

Definition symbolReferenceSchema : z.ZodType :=
  fileLocationSchema
  |> z.extend
       [ ("symbolId", z.string |> z.optional);
         ("symbolName", z.string |> z.optional);
         ("symbolKind", z.string |> z.optional) ].

Definition relationshipDirectionsSchema (itemSchema : z.ZodType) : z.ZodType :=
  z.object
    [ ("outgoing", z.array itemSchema);
      ("incoming", z.array itemSchema) ].

Definition stringRelationshipDirectionsSchema : z.ZodType :=
  z.object
    [ ("outgoing", z.array z.string);
      ("incoming", z.array z.string) ].

(** [TEST_PATTERNS] *)
Definition TEST_PATTERNS : list (string * re.RegExp) :=
  [ ("javascript",
     re.seq [re.Lit "."; re.alt [re.Lit "spec"; re.Lit "test"]; re.Lit ".";
             re.alt [re.Lit "js"; re.Lit "jsx"; re.Lit "mjs"; re.Lit "cjs"];
             re.Eos]);
    ("typescript",
     re.seq [re.Lit "."; re.alt [re.Lit "spec"; re.Lit "test"]; re.Lit ".";
             re.alt [re.Lit "ts"; re.Lit "tsx"]; re.Eos]);
    ("python",
     re.alt [re.seq [re.Lit "_"; re.alt [re.Lit "test"; re.Lit "spec"];
                     re.Lit ".py"; re.Eos];
             re.seq [re.Bos; re.Lit "test_"; re.Star re.Dot; re.Lit ".py";
                     re.Eos]]);
    ("java",
     re.alt [re.seq [re.Lit "Test.java"; re.Eos];
             re.seq [re.Lit "Tests.java"; re.Eos]]);
    ("kotlin",
     re.alt [re.seq [re.Lit "Test.kt"; re.Eos];
             re.seq [re.Lit "Tests.kt"; re.Eos]]);
    ("go", re.seq [re.Lit "_test.go"; re.Eos]);
    ("rust",
     re.seq [re.alt [re.seq [re.Lit "test"; re.Opt (re.Lit "s"); re.Lit ".rs"];
                     re.seq [re.Star re.Dot; re.Lit "_test.rs"]];
             re.Eos]);
    ("ruby",
     re.alt [re.seq [re.Lit "_spec.rb"; re.Eos];
             re.seq [re.Lit "_test.rb"; re.Eos]]);
    ("php", re.seq [re.Lit "Test.php"; re.Eos]);
    ("csharp",
     re.alt [re.seq [re.Lit "Test.cs"; re.Eos];
             re.seq [re.Lit "Tests.cs"; re.Eos]]);
    ("swift",
     re.alt [re.seq [re.Lit "Test.swift"; re.Eos];
             re.seq [re.Lit "Tests.swift"; re.Eos]]);
    ("scala",
     re.alt [re.seq [re.Lit "Test.scala"; re.Eos];
             re.seq [re.Lit "Spec.scala"; re.Eos]]);
    ("elixir", re.seq [re.Lit "_test.exs"; re.Eos]) ].

(** [ENTRY_POINT_PATTERNS] *)
Definition ENTRY_POINT_PATTERNS : list (string * list re.RegExp) :=
  [ ("javascript",
     [ re.seq [re.Lit "/main.js"; re.Eos]; re.seq [re.Lit "/index.js"; re.Eos];
       re.seq [re.Lit "/server.js"; re.Eos]; re.seq [re.Lit "/app.js"; re.Eos] ]);
    ("typescript",
     [ re.seq [re.Lit "/main.ts"; re.Eos]; re.seq [re.Lit "/index.ts"; re.Eos];
       re.seq [re.Lit "/server.ts"; re.Eos]; re.seq [re.Lit "/app.ts"; re.Eos] ]);
    ("python",
     [ re.seq [re.Lit "__main__.py"; re.Eos]; re.seq [re.Lit "/main.py"; re.Eos];
       re.seq [re.Lit "/app.py"; re.Eos]; re.seq [re.Lit "/manage.py"; re.Eos];
       re.seq [re.Lit "/run.py"; re.Eos] ]);
    ("java",
     [ re.seq [re.Lit "Main.java"; re.Eos];
       re.seq [re.Lit "Application.java"; re.Eos] ]);
    ("go", [ re.seq [re.Lit "/main.go"; re.Eos] ]);
    ("rust", [ re.seq [re.Lit "/main.rs"; re.Eos] ]);
    ("ruby",
     [ re.seq [re.Lit "/main.rb"; re.Eos];
       re.seq [re.Lit "/application.rb"; re.Eos] ]);
    ("php",
     [ re.seq [re.Lit "/index.php"; re.Eos]; re.seq [re.Lit "/app.php"; re.Eos] ]);
    ("csharp",
     [ re.seq [re.Lit "Program.cs"; re.Eos]; re.seq [re.Lit "Main.cs"; re.Eos] ]) ].

End common.

(* ================================================================= *)
(** ** src/api-response.schema.ts *)

Module api_response.

(** [ApiResponse<T>], the type of the guards' argument:
    [{ success: true; data: T }] or
    [{ success: false; error: { code: string; message: string; details?: any } }]. *)
Inductive ApiResponse (T : JS.value -> Prop) : JS.object -> Prop :=
| api_success (r : JS.object) :
    get r "success" = VBool true ->
    T (get r "data") ->
    ApiResponse T r
| api_error (r error : JS.object) (code message : string) :
    get r "success" = VBool false ->
    get r "error" = VObj error ->
    get error "code" = VStr code ->
    get error "message" = VStr message ->
    ApiResponse T r.

Definition isSuccessResponse (response : JS.object) : bool :=
  strictEquals (get response "success") (VBool true).

Definition isErrorResponse (response : JS.object) : bool :=
  strictEquals (get response "success") (VBool false).

(** [apiResponseSchema(dataSchema)] *)
Definition apiResponseSchema (dataSchema : z.ZodType) : z.ZodType :=
  z.object
    [ ("success", z.literal (VBool true));
      ("data", dataSchema) ].

Definition apiErrorResponseSchema : zx.ZodType :=
  zx.object
    [ ("success", zx.core (z.literal (VBool false)));
      ("error",
       zx.object
         [ ("code", zx.core z.string);
           ("message", zx.core z.string);
           ("details", zx.any |> zx.optional) ]) ].

End api_response.

(* ================================================================= *)
(** ** src/executors/*.schema.ts *)

Module executors.

(** search-symbols.schema.ts *)
Definition searchSymbolsParamsSchema : z.ZodType :=
  z.object
    [ ("query", z.string |> z.min 1 |> z.max 200);
      ("filterByKind", z.array z.string |> z.optional);
      ("filterByVisibility", z.array z.string |> z.optional);
      ("isExported", z.boolean |> z.optional);
      ("filterByFile", z.string |> z.optional);
      ("limit", z.number |> z.int |> z.positive |> z.max 100 |> z.default (num 50));
      ("offset", z.number |> z.int |> z.nonnegative |> z.default (num 0));
      ("includeUsageCount", z.boolean |> z.optional);
      ("includeDocumentation", z.boolean |> z.optional) ].

(** get-symbol-details.schema.ts *)
Definition getSymbolDetailsParamsSchema : z.ZodType :=
  z.object
    [ ("symbolId", z.string |> z.optional);
      ("symbolName", z.string |> z.optional);
      ("filePath", z.string |> z.optional);
      ("includeReferences", z.boolean |> z.optional);
      ("includeRelationships", z.boolean |> z.optional);
      ("includeImpactScore", z.boolean |> z.optional) ].

(** get-dependencies.schema.ts *)
Definition getDependenciesParamsSchema : z.ZodType :=
  z.object
    [ ("filePath", z.string |> z.min 1);
      ("depth", z.number |> z.int |> z.nonnegative |> z.max 10 |> z.optional);
      ("includePackages", z.boolean |> z.optional);
      ("includeSymbols", z.boolean |> z.optional);
      ("limit", z.number |> z.int |> z.positive |> z.max 100 |> z.default (num 20));
      ("offset", z.number |> z.int |> z.nonnegative |> z.default (num 0)) ].

(** get-dependents.schema.ts *)
Definition getDependentsParamsSchema : z.ZodType :=
  z.object
    [ ("filePath", z.string |> z.min 1);
      ("depth", z.number |> z.int |> z.nonnegative |> z.max 10 |> z.optional);
      ("includeSymbols", z.boolean |> z.optional);
      ("includeImpactMetrics", z.boolean |> z.optional);
      ("limit", z.number |> z.int |> z.positive |> z.max 100 |> z.default (num 20));
      ("offset", z.number |> z.int |> z.nonnegative |> z.default (num 0)) ].

(** find-circular-dependencies.schema.ts *)
Definition findCircularDependenciesParamsSchema : z.ZodType :=
  z.object
    [ ("filePath", z.string |> z.min 1 |> z.optional);
      ("minCycleLength", z.number |> z.int |> z.min 2 |> z.max 10 |> z.optional);
      ("maxCycleLength", z.number |> z.int |> z.min 2 |> z.max 10 |> z.optional);
      ("limit", z.number |> z.int |> z.positive |> z.max 100 |> z.default (num 50));
      ("offset", z.number |> z.int |> z.nonnegative |> z.default (num 0));
      ("includeImpactScore", z.boolean |> z.optional);
      ("includeConfidence", z.boolean |> z.optional) ].

(** trace-symbol-usage.schema.ts *)
Definition traceSymbolUsageParamsSchema : z.ZodType :=
  z.object
    [ ("symbolId", z.string |> z.optional);
      ("symbolName", z.string |> z.optional);
      ("filePath", z.string |> z.optional);
      ("filterByUsageType", z.array z.string |> z.optional);
      ("filterByRelationshipType", z.array z.string |> z.optional);
      ("includeTransitive", z.boolean |> z.optional);
      ("includeContext", z.boolean |> z.optional);
      ("excludeTests", z.boolean |> z.optional);
      ("excludeGenerated", z.boolean |> z.optional);
      ("includeImportanceWeight", z.boolean |> z.optional);
      ("limit", z.number |> z.int |> z.positive |> z.max 100 |> z.default (num 50));
      ("offset", z.number |> z.int |> z.nonnegative |> z.default (num 0)) ].

(** get-call-graph.schema.ts *)
Definition getCallGraphParamsSchema : z.ZodType :=
  z.object
    [ ("symbolId", z.string |> z.optional);
      ("symbolName", z.string |> z.optional);
      ("filePath", z.string |> z.optional);
      ("direction", z.enum [ "callers"; "callees"; "both" ] |> z.default (VStr "both"));
      ("depth", z.number |> z.int |> z.positive |> z.max 10 |> z.default (num 3));
      ("excludeExternal", z.boolean |> z.optional);
      ("includeGraph", z.boolean |> z.optional);
      ("limit", z.number |> z.int |> z.positive |> z.max 100 |> z.default (num 25));
      ("offset", z.number |> z.int |> z.nonnegative |> z.default (num 0)) ].

(** impact-analysis.schema.ts *)
Definition impactAnalysisParamsSchema : z.ZodType :=
  z.object
    [ ("symbolId", z.string |> z.optional);
      ("qualifiedName", z.string |> z.optional);
      ("symbolName", z.string |> z.optional);
      ("filePath", z.string |> z.optional);
      ("includeDirectDependents", z.boolean |> z.default (VBool true));
      ("includeTransitiveDependents", z.boolean |> z.default (VBool true));
      ("depth", z.number |> z.int |> z.min 1 |> z.max 5 |> z.default (num 3));
      ("excludeTests", z.boolean |> z.default (VBool true));
      ("excludeGenerated", z.boolean |> z.default (VBool true));
      ("analyzeBreakingChanges", z.boolean |> z.default (VBool true)) ].

(** find-orphaned-code.schema.ts *)
Definition findOrphanedCodeParamsSchema : z.ZodType :=
  z.object
    [ ("filePattern", z.string |> z.optional);
      ("filterByKind", z.array z.string |> z.optional);
      ("exportedOnly", z.boolean |> z.optional);
      ("excludeTests", z.boolean |> z.default (VBool true));
      ("limit", z.number |> z.int |> z.positive |> z.max 100 |> z.default (num 50));
      ("offset", z.number |> z.int |> z.nonnegative |> z.default (num 0));
      ("includeConfidence", z.boolean |> z.optional) ].

(** get-architecture-overview.schema.ts *)
Definition getArchitectureOverviewParamsSchema : z.ZodType :=
  z.object
    [ ("includeMetrics", z.boolean |> z.default (VBool false));
      ("includeModuleGraph", z.boolean |> z.default (VBool false));
      ("includePackages", z.boolean |> z.default (VBool true)) ].

(** ping.schema.ts *)
Definition pingParamsSchema : z.ZodType := z.object [] |> z.strict.

Definition pingResultSchema : z.ZodType :=
  z.object [ ("pong", z.literal (VBool true)) ].

(** The result schemas that the combinators above can write. *)



(** find-circular-dependencies.schema.ts *)
Definition circularDependencyCycleSchema : z.ZodType :=
  z.object
    [ ("files", z.array z.string);
      ("length", z.number |> z.int |> z.positive);
      ("impactScore", z.number |> z.min 0 |> z.max 100 |> z.optional);
      ("severity", common.riskLevelSchema) ].


(** get-symbol-details.schema.ts *)
Definition symbolUsageReferenceSchema : z.ZodType :=
  common.fileLocationSchema
  |> z.extend
       [ ("usageType", z.string);
         ("context", z.string |> z.optional);
         ("aliasName", z.string |> z.optional) ].

(** impact-analysis.schema.ts *)
Definition impactedSymbolSchema : z.ZodType :=
  common.fileLocationSchema
  |> z.extend
       [ ("id", z.string);
         ("name", z.string);
         ("qualifiedName", z.string);
         ("kind", z.string);
         ("relationshipType", z.string);
         ("depth", z.number |> z.int |> z.positive);
         ("isExported", z.boolean |> z.optional);
         ("transitiveImpactCount", z.number |> z.int |> z.nonnegative |> z.optional) ].




(** get-dependencies.schema.ts *)
Definition directDependencySchema : zx.ZodType :=
  zx.object
    [ ("type", zx.core (z.enum [ "file"; "module" ]));
      ("filePath", zx.core z.string |> zx.nullable);
      ("moduleName", zx.core z.string |> zx.nullable |> zx.optional);
      ("importedSymbols", zx.core (z.array z.string |> z.optional));
      ("isDefault", zx.core z.boolean);
      ("isNamespace", zx.core z.boolean) ].

End executors.

(* ================================================================= *)
(** ** src/indexing/*.schema.ts *)

Module indexing.

(** import-resolution.schema.ts *)
Definition importTypeSchema : z.ZodType :=
  z.enum [ "relative"; "workspace"; "alias"; "external"; "builtin" ].

Definition importResolutionSchema : z.ZodType :=
  z.object
    [ ("source", z.string);
      ("resolvedPath", z.string |> z.optional);
      ("isExternal", z.boolean);
      ("importType", importTypeSchema) ].

(** indexing-response.schema.ts *)
Definition fileFailureSchema : z.ZodType :=
  z.object [ ("file", z.string); ("error", z.string) ].

Definition relationshipFailureSchema : z.ZodType :=
  z.object
    [ ("file", z.string);
      ("failedCount", z.number |> z.int |> z.nonnegative);
      ("createdCount", z.number |> z.int |> z.nonnegative);
      ("isTransient", z.boolean) ].

Definition relationshipSummarySchema : z.ZodType :=
  z.object
    [ ("totalCreated", z.number |> z.int |> z.nonnegative);
      ("totalFailed", z.number |> z.int |> z.nonnegative);
      ("filesWithFailures", z.array relationshipFailureSchema) ].

Definition indexingResponseSchema : z.ZodType :=
  z.object
    [ ("processed", z.number |> z.int |> z.nonnegative);
      ("failed", z.number |> z.int |> z.nonnegative);
      ("projectId", z.string);
      ("branchName", z.string);
      ("failedFiles", z.array fileFailureSchema |> z.optional);
      ("relationships", relationshipSummarySchema) ].

(** import-resolution.schema.ts *)
Definition importResolutionMetadataSchema : zx.ZodType :=
  zx.record z.string (zx.core importResolutionSchema).

(** project-state.schema.ts *)
Definition projectStateSchema : zx.ZodType :=
  zx.object
    [ ("projectId", zx.core z.string);
      ("projectName", zx.core z.string);
      ("branch", zx.core z.string);
      ("latestCommit", zx.core z.string |> zx.nullable);
      ("fileCount", zx.core (z.number |> z.int |> z.nonnegative));
      ("lastIndexedAt", zx.core z.string |> zx.nullable);
      ("languages", zx.core (z.array z.string)) ].

End indexing.

Import common api_response executors indexing.

(* ================================================================= *)
(** ** Vocabulary of the statements *)

(** The schema accepts the input: [safeParse] returns [success: true]. *)
Definition accepts (schema : z.ZodType) (input : JS.value) : Prop :=
  exists data, z.safeParse schema input = z.Success data.

(** The schema rejects the input: [safeParse] returns [success: false]. *)
Definition rejects (schema : z.ZodType) (input : JS.value) : Prop :=
  exists issues, z.safeParse schema input = z.Failure issues.

(** The value is the number [n], an integer. *)
Definition isInt (v : JS.value) (n : Z) : Prop :=
  exists q, v = VNum (Finite q) /\ (q == inject_Z n)%Q.

Definition intBetween (lo hi : Z) (v : JS.value) : Prop :=
  exists n, isInt v n /\ lo <= n <= hi.

Definition nonnegativeInt (v : JS.value) : Prop :=
  exists n, isInt v n /\ 0 <= n.

Definition isString (v : JS.value) : Prop := exists s, v = VStr s.

Definition isBoolean (v : JS.value) : Prop := exists b, v = VBool b.

(** What a number check asks of an integer. *)
Definition checkHolds (n : Z) (c : z.ZodNumberCheck) : Prop :=
  match c with
  | z.NumInt => True
  | z.NumMin value true => value <= n
  | z.NumMin value false => value < n
  | z.NumMax value true => n <= value
  | z.NumMax value false => n < value
  end.

(** [schema.shape] *)
Definition shapeOf (schema : z.ZodType) : list (string * z.ZodType) :=
  match schema with
  | z.ZodObject shape _ => shape
  | _ => []
  end.

(** [schema.shape[key]] *)
Fixpoint field (shape : list (string * z.ZodType)) (key : string) : option z.ZodType :=
  match shape with
  | [] => None
  | (k, t) :: rest => if String.eqb key k then Some t else field rest key
  end.

(** The [pairs] that [ZodObject._parse] builds for an input. *)
Definition pairsOf (shape : list (string * z.ZodType)) (data : JS.object)
    : list z.ObjectPair :=
  map (fun entry : string * z.ZodType =>
         (fst entry, z.safeParse (snd entry) (get data (fst entry)),
          has data (fst entry))) shape.

(** Every key of the shape accepts what the input holds under it. *)
Definition fieldsAccept (shape : list (string * z.ZodType)) (data : JS.object) : Prop :=
  Forall (fun entry => accepts (snd entry) (get data (fst entry))) shape.

Definition keyIn (keys : list string) (entry : string * z.ZodType) : bool :=
  existsb (String.eqb (fst entry)) keys.

(** Every key of the schema other than those of [skip] accepts what the
    input holds under it. *)
Definition otherFieldsAccept (schema : z.ZodType) (skip : list string)
    (data : JS.object) : Prop :=
  fieldsAccept (filter (fun entry => negb (keyIn skip entry)) (shapeOf schema)) data.

Fixpoint uniqueKeys (keys : list string) : bool :=
  match keys with
  | [] => true
  | k :: rest => negb (existsb (String.eqb k) rest) && uniqueKeys rest
  end.

(** *** Tables the statements range over *)

(** The query parameter schemas that carry [limit] and [offset], each with
    the default it gives [limit]. *)
Definition paginatedParamsSchemas : list (z.ZodType * Z) :=
  [ (searchSymbolsParamsSchema, 50);
    (getDependenciesParamsSchema, 20);
    (getDependentsParamsSchema, 20);
    (getCallGraphParamsSchema, 25);
    (findCircularDependenciesParamsSchema, 50);
    (traceSymbolUsageParamsSchema, 50);
    (findOrphanedCodeParamsSchema, 50) ].

Definition dependencyParamsSchemas : list z.ZodType :=
  [ getDependenciesParamsSchema; getDependentsParamsSchema ].

(** Every executor parameter schema but ping's. *)
Definition otherExecutorParamsSchemas : list z.ZodType :=
  [ searchSymbolsParamsSchema;
    getSymbolDetailsParamsSchema;
    getDependenciesParamsSchema;
    getDependentsParamsSchema;
    findCircularDependenciesParamsSchema;
    traceSymbolUsageParamsSchema;
    getCallGraphParamsSchema;
    impactAnalysisParamsSchema;
    findOrphanedCodeParamsSchema;
    getArchitectureOverviewParamsSchema ].

Definition impactAnalysisToggles : list string :=
  [ "excludeTests"; "excludeGenerated"; "includeDirectDependents";
    "includeTransitiveDependents"; "analyzeBreakingChanges" ].

(** The seventeen symbol kinds of the specification's data model. *)
Definition specSymbolKinds : list string :=
  [ "function"; "class"; "interface"; "type"; "variable"; "constant";
    "enum"; "module"; "namespace"; "method"; "property"; "parameter";
    "constructor"; "trait"; "struct"; "macro"; "unknown" ].

(** The eighteen symbol kinds of [symbolKindCategorySchema]. *)
Definition symbolKindCategories : list string :=
  [ "function"; "class"; "interface"; "type"; "variable"; "constant";
    "enum"; "module"; "namespace"; "method"; "property"; "parameter";
    "constructor"; "decorator"; "trait"; "struct"; "macro"; "unknown" ].

(** The pagination invariant of a result page, for the request's [limit]
    and [offset]: [returned <= limit] and
    [hasMore == (offset + returned < total)]. *)
Definition paginationInvariant (limit offset : Z) (page : JS.object) : Prop :=
  exists total returned hasMore,
    isInt (get page "total") total
    /\ isInt (get page "returned") returned
    /\ get page "hasMore" = VBool hasMore
    /\ returned <= limit
    /\ (hasMore = true <-> offset + returned < total).

(** What [paginationMetadataSchema] asks of a page, key by key. *)
Definition paginationShape (page : JS.object) : Prop :=
  nonnegativeInt (get page "total")
  /\ nonnegativeInt (get page "returned")
  /\ isBoolean (get page "hasMore")
  /\ (get page "nextOffset" = VUndefined \/ nonnegativeInt (get page "nextOffset"))
  /\ (get page "currentOffset" = VUndefined
      \/ nonnegativeInt (get page "currentOffset")).

(** [limit]'s and [offset]'s validators in the paginated schemas. *)
Definition limitSchema (d : Z) : z.ZodType :=
  z.number |> z.int |> z.positive |> z.max 100 |> z.default (num d).

Definition offsetSchema : z.ZodType :=
  z.number |> z.int |> z.nonnegative |> z.default (num 0).


(** *** Further vocabulary *)

Definition positiveInt (v : JS.value) : Prop :=
  exists n, isInt v n /\ 1 <= n.

Definition optionalString (v : JS.value) : Prop :=
  v = VUndefined \/ isString v.

Definition succeeds (r : z.SafeParseReturn) : bool :=
  match r with
  | z.Success _ => true
  | z.Failure _ => false
  end.

(** The parameter schemas none of whose keys is required. *)
Definition paramsWithoutRequiredKey : list z.ZodType :=
  [ getSymbolDetailsParamsSchema;
    findCircularDependenciesParamsSchema;
    traceSymbolUsageParamsSchema;
    getCallGraphParamsSchema;
    impactAnalysisParamsSchema;
    findOrphanedCodeParamsSchema;
    getArchitectureOverviewParamsSchema ].

(** The parameter schemas with a required key, and that key. *)
Definition paramsWithRequiredKey : list (z.ZodType * string) :=
  [ (searchSymbolsParamsSchema, "query");
    (getDependenciesParamsSchema, "filePath");
    (getDependentsParamsSchema, "filePath") ].

(** The schemas written as [fileLocationSchema.extend({...})]. *)
Definition fileLocationExtensions : list z.ZodType :=
  [ symbolReferenceSchema; symbolUsageReferenceSchema; impactedSymbolSchema ].

(** Acceptance by a schema of [zx]. *)
Definition xaccepts (schema : zx.ZodType) (input : JS.value) : Prop :=
  exists data, zx.safeParse schema input = z.Success data.

Definition xfieldsAccept (shape : list (string * zx.ZodType)) (data : JS.object)
    : Prop :=
  Forall (fun entry => xaccepts (snd entry) (get data (fst entry))) shape.

Definition nullableString (v : JS.value) : Prop :=
  v = VNull \/ isString v.

(** *** Vocabulary for the patterns *)

Definition endsWith (s suffix : string) : Prop :=
  exists before, s = (before ++ suffix)%string.

(** The strings a pattern without [.], [*] or an anchor matches exactly. *)
Fixpoint words (r : re.RegExp) : list string :=
  match r with
  | re.Lit chars => [chars]
  | re.Seq a b => flat_map (fun wa => map (String.append wa) (words b)) (words a)
  | re.Alt a b => (words a ++ words b)%list
  | re.Opt a => (words a ++ [""])%list
  | _ => []
  end.

Fixpoint plain (r : re.RegExp) : bool :=
  match r with
  | re.Lit _ => true
  | re.Seq a b => plain a && plain b
  | re.Alt a b => plain a && plain b
  | re.Opt a => plain a
  | _ => false
  end.

(** For a pattern every alternative of which is literal text closed by
    [$]: the strings it matches from a position to the end of input. *)
Fixpoint endWords (r : re.RegExp) : option (list string) :=
  match r with
  | re.Eos => Some [""]
  | re.Seq a b =>
      if plain a then
        match endWords b with
        | Some wb =>
            Some (flat_map (fun wa => map (String.append wa) wb) (words a))
        | None => None
        end
      else None
  | re.Alt a b =>
      match endWords a, endWords b with
      | Some wa, Some wb => Some (wa ++ wb)%list
      | _, _ => None
      end
  | _ => None
  end.

(** The file name endings that mark a test file, by language, for the
    patterns that are plain endings. *)
Definition testFileEndings : list (string * list string) :=
  [ ("javascript",
     [ ".spec.js"; ".spec.jsx"; ".spec.mjs"; ".spec.cjs";
       ".test.js"; ".test.jsx"; ".test.mjs"; ".test.cjs" ]);
    ("typescript", [ ".spec.ts"; ".spec.tsx"; ".test.ts"; ".test.tsx" ]);
    ("java", [ "Test.java"; "Tests.java" ]);
    ("kotlin", [ "Test.kt"; "Tests.kt" ]);
    ("go", [ "_test.go" ]);
    ("ruby", [ "_spec.rb"; "_test.rb" ]);
    ("php", [ "Test.php" ]);
    ("csharp", [ "Test.cs"; "Tests.cs" ]);
    ("swift", [ "Test.swift"; "Tests.swift" ]);
    ("scala", [ "Test.scala"; "Spec.scala" ]);
    ("elixir", [ "_test.exs" ]) ].

(** The path endings that mark an entry point, by language. *)
Definition entryPointEndings : list (string * list string) :=
  [ ("javascript", [ "/main.js"; "/index.js"; "/server.js"; "/app.js" ]);
    ("typescript", [ "/main.ts"; "/index.ts"; "/server.ts"; "/app.ts" ]);
    ("python", [ "__main__.py"; "/main.py"; "/app.py"; "/manage.py"; "/run.py" ]);
    ("java", [ "Main.java"; "Application.java" ]);
    ("go", [ "/main.go" ]);
    ("rust", [ "/main.rs" ]);
    ("ruby", [ "/main.rb"; "/application.rb" ]);
    ("php", [ "/index.php"; "/app.php" ]);
    ("csharp", [ "Program.cs"; "Main.cs" ]) ].

Fixpoint noLineTerminator (s : string) : bool :=
  match s with
  | EmptyString => true
  | String c rest => negb (re.isLineTerminator c) && noLineTerminator rest
  end.

(** *** Vocabulary for the package as a whole *)

(** All eleven executor parameter schemas. *)
Definition executorParamsSchemas : list z.ZodType :=
  pingParamsSchema :: otherExecutorParamsSchemas.


(** Validators without a default or an object inside. *)
Fixpoint plainValidator (schema : z.ZodType) : bool :=
  match schema with
  | z.ZodObject _ _ => false
  | z.ZodDefault _ _ => false
  | z.ZodArray element => plainValidator element
  | z.ZodOptional innerType => plainValidator innerType
  | _ => true
  end.

(** A plain validator, possibly under one [.default()]. *)
Definition plainOrDefault (schema : z.ZodType) : bool :=
  match schema with
  | z.ZodDefault innerType _ => plainValidator innerType
  | _ => plainValidator schema
  end.


(* ================================================================= *)
(** ** Facts about the interpreter *)

Section ZodFacts.

Lemma finish_success (issues : list z.ZodIssueCode) (data data' : JS.value) :
  z.finish issues data = z.Success data' <-> issues = [] /\ data = data'.
Proof.
  destruct issues; simpl; split.
  - intros H; injection H as ->; auto.
  - intros [_ ->]; reflexivity.
  - discriminate.
  - intros [H _]; discriminate.
Qed.

Lemma finish_failure (issues js : list z.ZodIssueCode) (data : JS.value) :
  z.finish issues data = z.Failure js -> js <> [].
Proof.
  destruct issues; simpl; intros H; [discriminate|].
  injection H as <-; discriminate.
Qed.

(** A failure always carries an issue. *)
Lemma failure_nonempty (schema : z.ZodType) :
  forall input issues,
    z.safeParse schema input = z.Failure issues -> issues <> [].
Proof.
  induction schema; intros input issues H; simpl in H.
  - destruct input; try (injection H as <-; discriminate).
    eapply finish_failure; eassumption.
  - destruct input; try (injection H as <-; discriminate).
    destruct (isNaN n); [injection H as <-; discriminate|].
    eapply finish_failure; eassumption.
  - destruct input; try (injection H as <-; discriminate); discriminate.
  - destruct (strictEquals _ _); [discriminate|].
    injection H as <-; discriminate.
  - destruct input; try (injection H as <-; discriminate).
    destruct (existsb _ _); [discriminate|].
    injection H as <-; discriminate.
  - destruct input; try (injection H as <-; discriminate).
    eapply finish_failure; eassumption.
  - destruct input; try (injection H as <-; discriminate).
    eapply finish_failure; eassumption.
  - destruct input; try discriminate; eapply IHschema; eassumption.
  - destruct input; eapply IHschema; eassumption.
Qed.

Lemma issuesOf_nil (schema : z.ZodType) (input : JS.value) :
  z.issuesOf (z.safeParse schema input) = [] <-> accepts schema input.
Proof.
  unfold accepts.
  destruct (z.safeParse schema input) as [d|js] eqn:E; simpl; split.
  - eauto.
  - reflexivity.
  - intros ->. exfalso. eapply failure_nonempty; eauto.
  - intros [d H]; discriminate.
Qed.

Lemma rejects_iff (schema : z.ZodType) (input : JS.value) :
  rejects schema input <-> ~ accepts schema input.
Proof.
  unfold rejects, accepts.
  destruct (z.safeParse schema input) as [d|js]; split.
  - intros [js H]; discriminate.
  - intros H; exfalso; apply H; eauto.
  - intros _ [d H]; discriminate.
  - eauto.
Qed.

Lemma safeParse_object (shape : list (string * z.ZodType))
    (unknownKeys : z.UnknownKeysParam) (data : JS.object) :
  z.safeParse (z.ZodObject shape unknownKeys) (VObj data)
  = z.finish (z.pairIssues (pairsOf shape data)
              ++ z.unknownKeyIssues unknownKeys (map fst shape) data)
             (VObj (z.finalObject (pairsOf shape data))).
Proof. reflexivity. Qed.

Lemma pairIssues_nil (shape : list (string * z.ZodType)) (data : JS.object) :
  z.pairIssues (pairsOf shape data) = [] <-> fieldsAccept shape data.
Proof.
  unfold fieldsAccept, z.pairIssues.
  induction shape as [|[k t] rest IH]; simpl.
  - split; auto.
  - split.
    + intros H. apply app_eq_nil in H as [H1 H2].
      constructor; [apply issuesOf_nil; exact H1 | apply IH; exact H2].
    + intros H. inversion H as [|? ? H1 H2]; subst.
      apply issuesOf_nil in H1. simpl in H1. rewrite H1. simpl.
      apply IH; exact H2.
Qed.

(** An object schema succeeds exactly when each key's validator does and
    no unknown key is refused; the data is then the merged object. *)
Lemma safeParse_object_success (shape : list (string * z.ZodType))
    (unknownKeys : z.UnknownKeysParam) (input out : JS.value) :
  z.safeParse (z.ZodObject shape unknownKeys) input = z.Success out
  <-> exists data,
        input = VObj data
        /\ fieldsAccept shape data
        /\ z.unknownKeyIssues unknownKeys (map fst shape) data = []
        /\ out = VObj (z.finalObject (pairsOf shape data)).
Proof.
  split.
  - destruct input; try discriminate.
    rewrite safeParse_object. intros H.
    apply finish_success in H as [H <-].
    apply app_eq_nil in H as [H1 H2].
    exists props. repeat split; auto. apply pairIssues_nil; exact H1.
  - intros (data & -> & H1 & H2 & ->).
    rewrite safeParse_object. apply finish_success. split; auto.
    apply pairIssues_nil in H1. rewrite H1, H2. reflexivity.
Qed.

Lemma accepts_object (shape : list (string * z.ZodType))
    (unknownKeys : z.UnknownKeysParam) (input : JS.value) :
  accepts (z.ZodObject shape unknownKeys) input
  <-> exists data,
        input = VObj data
        /\ fieldsAccept shape data
        /\ z.unknownKeyIssues unknownKeys (map fst shape) data = [].
Proof.
  unfold accepts. split.
  - intros [out H]. apply safeParse_object_success in H.
    destruct H as (data & ? & ? & ? & _). eauto.
  - intros (data & ? & ? & ?). eexists.
    apply safeParse_object_success. eauto 6.
Qed.

Lemma accepts_strip (shape : list (string * z.ZodType)) (data : JS.object) :
  accepts (z.object shape) (VObj data) <-> fieldsAccept shape data.
Proof.
  unfold z.object. rewrite accepts_object. split.
  - intros (d & E & H & _). injection E as <-. exact H.
  - intros H. exists data. auto.
Qed.

End ZodFacts.

(** *** Numbers *)

Section NumberFacts.

Lemma isInteger_iff (q : Q) :
  isInteger (Finite q) = true <-> exists n, (q == inject_Z n)%Q.
Proof.
  simpl. rewrite Z.eqb_eq. split.
  - intros H. exists (Qnum q / Zpos (Qden q)).
    unfold Qeq; simpl. rewrite Z.mul_1_r.
    apply Z.div_exact in H; [|discriminate]. lia.
  - intros [n H]. unfold Qeq in H; simpl in H. rewrite Z.mul_1_r in H.
    rewrite H. apply Z.mod_mul. discriminate.
Qed.

Lemma isInt_unique (v : JS.value) (n m : Z) : isInt v n -> isInt v m -> n = m.
Proof.
  intros (q & -> & Hn) (q' & E & Hm). injection E as <-.
  rewrite Hn in Hm. unfold Qeq in Hm; simpl in Hm. lia.
Qed.

Lemma isInt_num (n : Z) : isInt (num n) n.
Proof. exists (inject_Z n). split; reflexivity. Qed.

Lemma Qle_bool_int_l (q : Q) (n b : Z) :
  (q == inject_Z n)%Q -> Qle_bool (inject_Z b) q = (b <=? n)%Z.
Proof.
  intros H. apply eq_true_iff_eq.
  rewrite Qle_bool_iff, Z.leb_le, H, <- Zle_Qle. reflexivity.
Qed.

Lemma Qle_bool_int_r (q : Q) (n b : Z) :
  (q == inject_Z n)%Q -> Qle_bool q (inject_Z b) = (n <=? b)%Z.
Proof.
  intros H. apply eq_true_iff_eq.
  rewrite Qle_bool_iff, Z.leb_le, H, <- Zle_Qle. reflexivity.
Qed.

Lemma numberCheck_int (q : Q) (n : Z) (c : z.ZodNumberCheck) :
  (q == inject_Z n)%Q ->
  z.numberCheck (Finite q) c = [] <-> checkHolds n c.
Proof.
  intros H. destruct c as [|b [|]|b [|]];
    unfold z.numberCheck, JS.ltb, JS.leb, of_Z, checkHolds.
  - assert (E : isInteger (Finite q) = true) by (apply isInteger_iff; eauto).
    rewrite E. tauto.
  - rewrite (Qle_bool_int_l q n b H).
    destruct (Z.leb_spec b n); simpl; split; (lia || discriminate || auto).
  - rewrite (Qle_bool_int_r q n b H).
    destruct (Z.leb_spec n b); simpl; split; (lia || discriminate || auto).
  - rewrite (Qle_bool_int_r q n b H).
    destruct (Z.leb_spec n b); simpl; split; (lia || discriminate || auto).
  - rewrite (Qle_bool_int_l q n b H).
    destruct (Z.leb_spec b n); simpl; split; (lia || discriminate || auto).
Qed.

Lemma flat_map_nil {A B : Type} (f : A -> list B) (l : list A) :
  flat_map f l = [] <-> Forall (fun x => f x = []) l.
Proof.
  induction l as [|a l IH]; simpl.
  - split; auto.
  - split.
    + intros H. apply app_eq_nil in H as [H1 H2].
      constructor; [exact H1 | apply IH; exact H2].
    + intros H. inversion H as [|? ? H1 H2]; subst.
      rewrite H1. apply IH; exact H2.
Qed.

(** A number schema that starts with [.int()] accepts exactly the
    integers that pass its bounds, and returns its input. *)
Lemma safeParse_int (checks : list z.ZodNumberCheck) (v out : JS.value) :
  z.safeParse (z.ZodNumber (z.NumInt :: checks)) v = z.Success out
  <-> out = v /\ exists n, isInt v n /\ Forall (checkHolds n) checks.
Proof.
  split.
  - destruct v; try discriminate. cbn [z.safeParse].
    destruct (isNaN n) eqn:EN; [discriminate|].
    intros H. apply finish_success in H as [H <-]. split; [reflexivity|].
    apply flat_map_nil in H. inversion H as [|? ? H1 H2]; subst.
    simpl in H1. destruct (isInteger n) eqn:EI; [|discriminate].
    destruct n as [| |q]; try discriminate.
    apply isInteger_iff in EI as [m Hm]. exists m. split.
    + exists q. auto.
    + eapply Forall_impl; [|exact H2].
      intros c Hc. apply (numberCheck_int q m c Hm). exact Hc.
  - intros (-> & n & (q & -> & Hq) & H). cbn [z.safeParse isNaN].
    apply finish_success. split; [|reflexivity].
    apply flat_map_nil. constructor.
    + apply (numberCheck_int q n z.NumInt Hq). exact I.
    + eapply Forall_impl; [|exact H].
      intros c Hc. apply (numberCheck_int q n c Hq). exact Hc.
Qed.

Lemma accepts_int (checks : list z.ZodNumberCheck) (v : JS.value) :
  accepts (z.ZodNumber (z.NumInt :: checks)) v
  <-> exists n, isInt v n /\ Forall (checkHolds n) checks.
Proof.
  unfold accepts. split.
  - intros [out H]. apply safeParse_int in H. tauto.
  - intros H. exists v. apply safeParse_int. auto.
Qed.

Lemma accepts_int_range (lo hi : Z) (v : JS.value) :
  accepts (z.number |> z.int |> z.min lo |> z.max hi) v <-> intBetween lo hi v.
Proof.
  simpl. rewrite accepts_int. unfold intBetween.
  split; intros (n & Hn & H); exists n; (split; [exact Hn|]).
  - inversion H as [|? ? H1 H2]; subst. inversion H2; subst.
    simpl in *. lia.
  - repeat constructor; simpl; lia.
Qed.

Lemma accepts_nonnegative_int (v : JS.value) :
  accepts (z.number |> z.int |> z.nonnegative) v <-> nonnegativeInt v.
Proof.
  simpl. rewrite accepts_int. unfold nonnegativeInt.
  split; intros (n & Hn & H); exists n; (split; [exact Hn|]).
  - inversion H; subst. assumption.
  - repeat constructor; simpl; lia.
Qed.

Lemma accepts_nonnegative_max (hi : Z) (v : JS.value) :
  accepts (z.number |> z.int |> z.nonnegative |> z.max hi) v
  <-> intBetween 0 hi v.
Proof.
  simpl. rewrite accepts_int. unfold intBetween.
  split; intros (n & Hn & H); exists n; (split; [exact Hn|]).
  - inversion H as [|? ? H1 H2]; subst. inversion H2; subst.
    simpl in *. lia.
  - repeat constructor; simpl; lia.
Qed.

Lemma accepts_positive_max (hi : Z) (v : JS.value) :
  accepts (z.number |> z.int |> z.positive |> z.max hi) v
  <-> intBetween 1 hi v.
Proof.
  simpl. rewrite accepts_int. unfold intBetween.
  split; intros (n & Hn & H); exists n; (split; [exact Hn|]).
  - inversion H as [|? ? H1 H2]; subst. inversion H2; subst.
    simpl in *. lia.
  - repeat constructor; simpl; lia.
Qed.

End NumberFacts.

(** *** The other validators *)

Section ValidatorFacts.

Lemma accepts_string (v : JS.value) : accepts z.string v <-> isString v.
Proof.
  unfold accepts, isString. split.
  - intros [d H]. destruct v; try discriminate. eauto.
  - intros [s ->]. eexists. reflexivity.
Qed.

Lemma accepts_boolean (v : JS.value) : accepts z.boolean v <-> isBoolean v.
Proof.
  unfold accepts, isBoolean. split.
  - intros [d H]. destruct v; try discriminate. eauto.
  - intros [b ->]. eexists. reflexivity.
Qed.

Lemma accepts_literal_bool (b : bool) (v : JS.value) :
  accepts (z.literal (VBool b)) v <-> v = VBool b.
Proof.
  unfold accepts. simpl. split.
  - intros [d H]. destruct v as [| |b'|n| | |]; simpl in H; try discriminate;
      try (destruct n; discriminate).
    destruct (Bool.eqb b' b) eqn:E; [|discriminate].
    apply Bool.eqb_prop in E. congruence.
  - intros ->. simpl. rewrite Bool.eqb_reflx. eauto.
Qed.

Lemma existsb_eqb_In (s : string) (l : list string) :
  existsb (String.eqb s) l = true <-> In s l.
Proof.
  rewrite existsb_exists. split.
  - intros (x & Hx & E). apply String.eqb_eq in E. congruence.
  - intros H. exists s. split; [exact H | apply String.eqb_refl].
Qed.

Lemma accepts_enum (values : list string) (v : JS.value) :
  accepts (z.enum values) v <-> exists s, v = VStr s /\ In s values.
Proof.
  unfold accepts. simpl. split.
  - intros [d H]. destruct v; try discriminate.
    destruct (existsb (String.eqb s) values) eqn:E; [|discriminate].
    apply existsb_eqb_In in E. eauto.
  - intros (s & -> & H). apply existsb_eqb_In in H. rewrite H. eauto.
Qed.

Lemma accepts_optional (t : z.ZodType) (v : JS.value) :
  accepts (t |> z.optional) v <-> v = VUndefined \/ accepts t v.
Proof.
  unfold accepts. simpl. split.
  - intros [d H]. destruct v; eauto.
  - intros [-> | [d H]]; [eauto|]. destruct v; eauto.
Qed.

Lemma accepts_default (t : z.ZodType) (d v : JS.value) :
  accepts (t |> z.default d) v
  <-> (v = VUndefined /\ accepts t d) \/ (v <> VUndefined /\ accepts t v).
Proof.
  unfold accepts. simpl.
  destruct v; split; intros H;
    try (right; split; [discriminate | exact H]);
    try (left; split; [reflexivity | exact H]);
    destruct H as [[E H] | [E H]]; try discriminate; try exact H;
    exfalso; apply E; reflexivity.
Qed.

Lemma accepts_array (t : z.ZodType) (v : JS.value) :
  accepts (z.array t) v <-> exists items, v = VArr items /\ Forall (accepts t) items.
Proof.
  unfold accepts at 1. simpl. split.
  - intros [d H]. destruct v; try discriminate. exists items. split; auto.
    unfold z.mergeArray in H. apply finish_success in H as [H _].
    apply flat_map_nil in H. rewrite Forall_map in H.
    eapply Forall_impl; [|exact H]. intros a Ha. apply issuesOf_nil. exact Ha.
  - intros (items & -> & H). eexists. unfold z.mergeArray.
    apply finish_success. split; [|reflexivity].
    apply flat_map_nil. rewrite Forall_map.
    eapply Forall_impl; [|exact H]. intros a Ha. apply issuesOf_nil. exact Ha.
Qed.

End ValidatorFacts.

(** *** Objects: keys, merged output, unknown keys *)

Section ObjectFacts.

Lemma field_In (shape : list (string * z.ZodType)) (k : string) (t : z.ZodType) :
  field shape k = Some t -> In (k, t) shape.
Proof.
  induction shape as [|[k' t'] rest IH]; simpl; [discriminate|].
  destruct (String.eqb_spec k k') as [->|N].
  - intros H; injection H as ->. left; reflexivity.
  - intros H. right. apply IH. exact H.
Qed.

Lemma field_None (shape : list (string * z.ZodType)) (k : string) :
  field shape k = None <-> existsb (String.eqb k) (map fst shape) = false.
Proof.
  induction shape as [|[k' t'] rest IH]; simpl; [tauto|].
  destruct (String.eqb k k'); simpl; [split; discriminate | exact IH].
Qed.

Lemma field_None_In (shape : list (string * z.ZodType)) (k k' : string)
    (t : z.ZodType) :
  field shape k = None -> In (k', t) shape -> String.eqb k' k = false.
Proof.
  intros H HI. apply field_None in H.
  destruct (String.eqb_spec k' k) as [->|N]; [|reflexivity].
  assert (E : existsb (String.eqb k) (map fst shape) = true).
  { apply existsb_eqb_In. apply (in_map fst) in HI. exact HI. }
  congruence.
Qed.

Lemma field_unique (shape : list (string * z.ZodType)) (k : string)
    (t t' : z.ZodType) :
  uniqueKeys (map fst shape) = true ->
  In (k, t') shape -> field shape k = Some t -> t' = t.
Proof.
  induction shape as [|[k0 t0] rest IH]; simpl; [tauto|].
  intros U HI HF. apply andb_prop in U as [U1 U2].
  destruct (String.eqb_spec k k0) as [->|N].
  - injection HF as <-. destruct HI as [E|HI]; [congruence|].
    apply (in_map fst) in HI. apply existsb_eqb_In in HI. simpl in HI.
    rewrite HI in U1. discriminate.
  - destruct HI as [E|HI]; [congruence|]. auto.
Qed.

Lemma field_accepts (shape : list (string * z.ZodType)) (data : JS.object)
    (k : string) (t : z.ZodType) :
  fieldsAccept shape data -> field shape k = Some t -> accepts t (get data k).
Proof.
  intros H HF. apply field_In in HF.
  unfold fieldsAccept in H. rewrite Forall_forall in H.
  exact (H (k, t) HF).
Qed.

(** One refused key refuses the object. *)
Lemma field_rejects (shape : list (string * z.ZodType))
    (unknownKeys : z.UnknownKeysParam) (data : JS.object)
    (k : string) (t : z.ZodType) :
  field shape k = Some t ->
  rejects t (get data k) ->
  rejects (z.ZodObject shape unknownKeys) (VObj data).
Proof.
  intros HF HR. apply rejects_iff. apply rejects_iff in HR.
  intros HA. apply HR. apply accepts_object in HA.
  destruct HA as (d & E & HA & _). injection E as <-.
  eapply field_accepts; eauto.
Qed.

(** The keys outside [skip] accept, and so does [k]: every key accepts. *)
Lemma fieldsAccept_with (shape : list (string * z.ZodType)) (data : JS.object)
    (k : string) (t : z.ZodType) :
  uniqueKeys (map fst shape) = true ->
  field shape k = Some t ->
  accepts t (get data k) ->
  fieldsAccept (filter (fun entry => negb (keyIn [k] entry)) shape) data ->
  fieldsAccept shape data.
Proof.
  unfold fieldsAccept. rewrite !Forall_forall.
  intros U HF HA H [k' t'] He.
  destruct (keyIn [k] (k', t')) eqn:E.
  - unfold keyIn in E. simpl in E. rewrite orb_false_r in E.
    apply String.eqb_eq in E. subst k'.
    rewrite (field_unique shape k t t' U He HF). exact HA.
  - apply H. apply filter_In. split; [exact He|]. rewrite E. reflexivity.
Qed.

Lemma pairsOf_cons (k : string) (t : z.ZodType)
    (rest : list (string * z.ZodType)) (data : JS.object) :
  pairsOf ((k, t) :: rest) data
  = (k, z.safeParse t (get data k), has data k) :: pairsOf rest data.
Proof. reflexivity. Qed.

Lemma finalObject_cons (k : string) (r : z.SafeParseReturn) (alwaysSet : bool)
    (pairs : list z.ObjectPair) :
  z.finalObject ((k, r, alwaysSet) :: pairs)
  = match r with
    | z.Success d =>
        if negb (isUndefined d) || alwaysSet
        then (k, d) :: z.finalObject pairs
        else z.finalObject pairs
    | z.Failure _ => z.finalObject pairs
    end.
Proof.
  unfold z.finalObject. simpl.
  destruct r as [d|js]; [|reflexivity].
  destruct (negb (isUndefined d) || alwaysSet); reflexivity.
Qed.

Lemma lookup_finalObject_absent (shape : list (string * z.ZodType))
    (data : JS.object) (k : string) :
  field shape k = None ->
  lookup (z.finalObject (pairsOf shape data)) k = None.
Proof.
  induction shape as [|[k' t'] rest IH]; [reflexivity|].
  simpl field. rewrite pairsOf_cons, finalObject_cons.
  destruct (String.eqb k k') eqn:E; [discriminate|].
  intros H.
  destruct (z.safeParse t' (get data k')) as [d|js]; [|auto].
  destruct (negb (isUndefined d) || has data k'); [|auto].
  simpl. rewrite E. auto.
Qed.

(** The merged object holds, under each key of the shape, what that
    key's validator returned. *)
Lemma get_finalObject (shape : list (string * z.ZodType)) (data : JS.object)
    (k : string) (t : z.ZodType) (x : JS.value) :
  uniqueKeys (map fst shape) = true ->
  field shape k = Some t ->
  z.safeParse t (get data k) = z.Success x ->
  get (z.finalObject (pairsOf shape data)) k = x.
Proof.
  induction shape as [|[k' t'] rest IH]; [discriminate|].
  simpl field. simpl uniqueKeys. rewrite pairsOf_cons, finalObject_cons.
  intros U HF HP. apply andb_prop in U as [U1 U2].
  destruct (String.eqb_spec k k') as [->|N].
  - injection HF as ->. rewrite HP.
    destruct (negb (isUndefined x) || has data k') eqn:E.
    + unfold get. simpl. rewrite String.eqb_refl. reflexivity.
    + apply orb_false_elim in E as [E _].
      destruct x; try discriminate.
      unfold get. rewrite lookup_finalObject_absent; [reflexivity|].
      apply field_None. apply negb_true_iff in U1. exact U1.
  - assert (E : String.eqb k k' = false) by (apply String.eqb_neq; exact N).
    specialize (IH U2 HF HP).
    destruct (z.safeParse t' (get data k')) as [d|js]; [|exact IH].
    destruct (negb (isUndefined d) || has data k'); [|exact IH].
    unfold get in *. simpl. rewrite E. exact IH.
Qed.

(** Stripping: a key the shape does not know is not in the output. *)
Lemma get_finalObject_unknown (shape : list (string * z.ZodType))
    (data : JS.object) (k : string) :
  field shape k = None ->
  has (z.finalObject (pairsOf shape data)) k = false.
Proof.
  intros H. unfold has. rewrite lookup_finalObject_absent; auto.
Qed.

Lemma pairsOf_unknown_key (shape : list (string * z.ZodType))
    (data : JS.object) (k : string) (v : JS.value) :
  field shape k = None ->
  pairsOf shape ((k, v) :: data) = pairsOf shape data.
Proof.
  intros H. unfold pairsOf. apply map_ext_in. intros [k' t'] HI.
  pose proof (field_None_In shape k k' t' H HI) as E.
  unfold get, has. simpl. rewrite E. reflexivity.
Qed.

(** In [strip] mode the parse does not see an unknown key at all. *)
Lemma strip_ignores_unknown_key (shape : list (string * z.ZodType))
    (data : JS.object) (k : string) (v : JS.value) :
  field shape k = None ->
  z.safeParse (z.object shape) (VObj ((k, v) :: data))
  = z.safeParse (z.object shape) (VObj data).
Proof.
  intros H. unfold z.object. rewrite !safeParse_object.
  rewrite (pairsOf_unknown_key shape data k v H). reflexivity.
Qed.

Lemma extraKeys_empty_shape (data : JS.object) :
  z.extraKeys [] data = keys data.
Proof.
  unfold z.extraKeys. simpl.
  induction (keys data) as [|k l IH]; simpl; [reflexivity|].
  rewrite IH. reflexivity.
Qed.

(** What a successful object parse gives under a key of the shape. *)
Lemma object_output (schema : z.ZodType) (data : JS.object) (out : JS.value)
    (k : string) (t : z.ZodType) (x : JS.value) :
  z.safeParse schema (VObj data) = z.Success out ->
  uniqueKeys (map fst (shapeOf schema)) = true ->
  field (shapeOf schema) k = Some t ->
  z.safeParse t (get data k) = z.Success x ->
  exists result, out = VObj result /\ get result k = x.
Proof.
  destruct schema; try discriminate. simpl shapeOf.
  intros H U HF HP. apply safeParse_object_success in H.
  destruct H as (d & E & _ & _ & ->). injection E as <-.
  eexists. split; [reflexivity|]. eapply get_finalObject; eauto.
Qed.

End ObjectFacts.

(* ================================================================= *)
(** ** Pagination parameters *)

Section Pagination.

Lemma accepts_limitSchema (d : Z) (v : JS.value) :
  1 <= d <= 100 ->
  accepts (limitSchema d) v <-> v = VUndefined \/ intBetween 1 100 v.
Proof.
  intros Hd. unfold limitSchema. rewrite accepts_default, !accepts_positive_max.
  split.
  - intros [[-> _]|[_ H]]; auto.
  - intros [->|H].
    + left. split; [reflexivity|]. exists d. split; [apply isInt_num | exact Hd].
    + right. split; [|exact H]. intros ->.
      destruct H as (n & (q & E & _) & _). discriminate.
Qed.

Lemma accepts_offsetSchema (v : JS.value) :
  accepts offsetSchema v <-> v = VUndefined \/ nonnegativeInt v.
Proof.
  unfold offsetSchema. rewrite accepts_default, !accepts_nonnegative_int.
  split.
  - intros [[-> _]|[_ H]]; auto.
  - intros [->|H].
    + left. split; [reflexivity|]. exists 0. split; [apply isInt_num | lia].
    + right. split; [|exact H]. intros ->.
      destruct H as (n & (q & E & _) & _). discriminate.
Qed.

Lemma limitSchema_default (d : Z) :
  1 <= d <= 100 -> z.safeParse (limitSchema d) VUndefined = z.Success (num d).
Proof.
  intros Hd. unfold limitSchema. cbn [z.default z.safeParse].
  apply safeParse_int. split; [reflexivity|].
  exists d. split; [apply isInt_num|]. repeat constructor; simpl; lia.
Qed.

Lemma offsetSchema_default :
  z.safeParse offsetSchema VUndefined = z.Success (num 0).
Proof. reflexivity. Qed.

(** Omitting a key whose validator has a default: the parse succeeds when
    the other keys accept, and the output holds the default. *)
Lemma omitted_key_defaults (shape : list (string * z.ZodType))
    (data : JS.object) (k : string) (t : z.ZodType) (x : JS.value) :
  uniqueKeys (map fst shape) = true ->
  field shape k = Some t ->
  z.safeParse t VUndefined = z.Success x ->
  get data k = VUndefined ->
  otherFieldsAccept (z.object shape) [k] data ->
  exists out,
    z.safeParse (z.object shape) (VObj data) = z.Success (VObj out)
    /\ get out k = x.
Proof.
  intros U HF HD HU HO.
  assert (HA : fieldsAccept shape data).
  { apply (fieldsAccept_with shape data k t U HF); [|exact HO].
    rewrite HU. exists x. exact HD. }
  apply accepts_strip in HA. destruct HA as [out HA].
  rewrite <- HU in HD.
  destruct (object_output (z.object shape) data out k t x HA U HF HD)
    as (result & -> & HG).
  exists result. auto.
Qed.

Lemma paginated_object (shape : list (string * z.ZodType)) (d : Z) :
  uniqueKeys (map fst shape) = true ->
  field shape "limit" = Some (limitSchema d) ->
  field shape "offset" = Some offsetSchema ->
  1 <= d <= 100 ->
  (forall data,
      get data "limit" <> VUndefined ->
      ~ intBetween 1 100 (get data "limit") ->
      rejects (z.object shape) (VObj data))
  /\ (forall data,
        get data "offset" <> VUndefined ->
        ~ nonnegativeInt (get data "offset") ->
        rejects (z.object shape) (VObj data))
  /\ (forall data,
        get data "limit" = VUndefined ->
        otherFieldsAccept (z.object shape) ["limit"] data ->
        exists out,
          z.safeParse (z.object shape) (VObj data) = z.Success (VObj out)
          /\ get out "limit" = num d)
  /\ (forall data,
        get data "offset" = VUndefined ->
        otherFieldsAccept (z.object shape) ["offset"] data ->
        exists out,
          z.safeParse (z.object shape) (VObj data) = z.Success (VObj out)
          /\ get out "offset" = num 0).
Proof.
  intros U HL HO Hd. repeat split.
  - intros data H1 H2. apply (field_rejects shape _ data _ _ HL).
    apply rejects_iff. rewrite (accepts_limitSchema d _ Hd). tauto.
  - intros data H1 H2. apply (field_rejects shape _ data _ _ HO).
    apply rejects_iff. rewrite accepts_offsetSchema. tauto.
  - intros data H1 H2.
    exact (omitted_key_defaults shape data "limit" _ _ U HL
             (limitSchema_default d Hd) H1 H2).
  - intros data H1 H2.
    exact (omitted_key_defaults shape data "offset" _ _ U HO
             offsetSchema_default H1 H2).
Qed.

End Pagination.

(** C1. Each of the seven paginated parameter schemas (searchSymbols,
    getDependencies, getDependents, getCallGraph, findCircularDependencies,
    traceSymbolUsage, findOrphanedCode) rejects an input whose [limit] is
    given and is not an integer from 1 to 100, rejects an input whose
    [offset] is given and is not a nonnegative integer, and, when [limit]
    (or [offset]) is omitted and the other keys are acceptable, parses
    successfully with [limit] set to the schema's default [d] (or [offset]
    set to 0); [d] lies between 20 and 50, and is 50 for searchSymbols and
    20 for getDependents as the table [paginatedParamsSchemas] records. *)
Theorem pagination_params_bounds_and_defaults (schema : z.ZodType) (d : Z) :
  In (schema, d) paginatedParamsSchemas ->
  20 <= d <= 50
  /\ (forall data,
        get data "limit" <> VUndefined ->
        ~ intBetween 1 100 (get data "limit") ->
        rejects schema (VObj data))
  /\ (forall data,
        get data "offset" <> VUndefined ->
        ~ nonnegativeInt (get data "offset") ->
        rejects schema (VObj data))
  /\ (forall data,
        get data "limit" = VUndefined ->
        otherFieldsAccept schema ["limit"] data ->
        exists out,
          z.safeParse schema (VObj data) = z.Success (VObj out)
          /\ get out "limit" = num d)
  /\ (forall data,
        get data "offset" = VUndefined ->
        otherFieldsAccept schema ["offset"] data ->
        exists out,
          z.safeParse schema (VObj data) = z.Success (VObj out)
          /\ get out "offset" = num 0).
Proof.
  intros H. simpl in H.
  repeat (destruct H as [H|H];
          [apply pair_equal_spec in H as [<- <-];
           (split; [lia|]);
           apply paginated_object; (reflexivity || lia)|]).
  contradiction.
Qed.

(** searchSymbols: a query with [limit: 101] is rejected, and a query
    without [limit] parses with [limit] 50. *)
Lemma pagination_params_witness :
  In (searchSymbolsParamsSchema, 50) paginatedParamsSchemas
  /\ rejects searchSymbolsParamsSchema
       (VObj [("query", VStr "parse"); ("limit", num 101)])
  /\ exists out,
       z.safeParse searchSymbolsParamsSchema (VObj [("query", VStr "parse")])
       = z.Success (VObj out)
       /\ get out "limit" = num 50.
Proof.
  assert (HI : In (searchSymbolsParamsSchema, 50) paginatedParamsSchemas)
    by (left; reflexivity).
  destruct (pagination_params_bounds_and_defaults _ _ HI)
    as (_ & HL & _ & HD & _).
  split; [exact HI|]. split.
  - apply HL.
    + discriminate.
    + intros (n & Hn & Hr).
      assert (n = 101) by (apply (isInt_unique (num 101)); [exact Hn | apply isInt_num]).
      lia.
  - apply HD.
    + reflexivity.
    + unfold otherFieldsAccept, fieldsAccept. simpl.
      repeat constructor; eexists; reflexivity.
Defined.

(* ================================================================= *)
(** ** Keys singled out of an object schema *)

Section KeyedObjects.

Lemma In_field (shape : list (string * z.ZodType)) (k : string) (t : z.ZodType) :
  uniqueKeys (map fst shape) = true ->
  In (k, t) shape -> field shape k = Some t.
Proof.
  induction shape as [|[k0 t0] rest IH]; simpl; [tauto|].
  intros U HI. apply andb_prop in U as [U1 U2].
  destruct HI as [E|HI].
  - injection E as -> ->. rewrite String.eqb_refl. reflexivity.
  - destruct (String.eqb_spec k k0) as [->|N]; [|auto].
    apply (in_map fst) in HI. apply existsb_eqb_In in HI. simpl in HI.
    rewrite HI in U1. discriminate.
Qed.

(** When the keys of [skip] accept and the others accept, all accept. *)
Lemma fieldsAccept_except (shape : list (string * z.ZodType))
    (data : JS.object) (skip : list string) :
  uniqueKeys (map fst shape) = true ->
  (forall k t, In k skip -> field shape k = Some t -> accepts t (get data k)) ->
  otherFieldsAccept (z.object shape) skip data ->
  fieldsAccept shape data.
Proof.
  unfold otherFieldsAccept, fieldsAccept. simpl shapeOf.
  rewrite !Forall_forall. intros U HS HO [k' t'] He.
  destruct (keyIn skip (k', t')) eqn:E.
  - apply (HS k' t').
    + unfold keyIn in E. apply existsb_eqb_In in E. exact E.
    + apply In_field; assumption.
  - apply HO. apply filter_In. split; [exact He|]. rewrite E. reflexivity.
Qed.

(** With the other keys acceptable, the object is accepted exactly when
    the singled-out key is. *)
Lemma keyed_object_accepts (shape : list (string * z.ZodType))
    (data : JS.object) (k : string) (t : z.ZodType) :
  uniqueKeys (map fst shape) = true ->
  field shape k = Some t ->
  otherFieldsAccept (z.object shape) [k] data ->
  accepts (z.object shape) (VObj data) <-> accepts t (get data k).
Proof.
  intros U HF HO. rewrite accepts_strip. split.
  - intros H. eapply field_accepts; eauto.
  - intros H. apply (fieldsAccept_except shape data [k] U); [|exact HO].
    intros k' t' [<-|[]] HF'. congruence.
Qed.

Lemma keyed_object_rejects (shape : list (string * z.ZodType))
    (data : JS.object) (k : string) (t : z.ZodType) :
  field shape k = Some t ->
  ~ accepts t (get data k) ->
  rejects (z.object shape) (VObj data).
Proof.
  intros HF H. apply (field_rejects shape _ data k t HF).
  apply rejects_iff. exact H.
Qed.

Lemma not_undefined_of_isInt (v : JS.value) (n : Z) : isInt v n -> v <> VUndefined.
Proof. intros (q & -> & _). discriminate. Qed.

Lemma intBetween_of_isInt (lo hi n : Z) (v : JS.value) :
  isInt v n -> intBetween lo hi v <-> lo <= n <= hi.
Proof.
  intros Hn. split.
  - intros (m & Hm & H). rewrite (isInt_unique v n m Hn Hm). exact H.
  - intros H. exists n. auto.
Qed.

End KeyedObjects.

(** Turns [fieldsAccept] of a listed shape into the conjunction of its
    keys' conditions. *)
Ltac fields_unfold :=
  unfold fieldsAccept;
  repeat rewrite Forall_cons_iff;
  rewrite Forall_nil_iff;
  cbn [fst snd].

(* ================================================================= *)
(** ** Pagination metadata of results *)

(** C2, as the code has it.  [paginationMetadataSchema] accepts a value
    exactly when it is an object whose [total] and [returned] are
    nonnegative integers, whose [hasMore] is a boolean, and whose
    [nextOffset] and [currentOffset] are absent or nonnegative integers:
    each key is validated on its own and no relation between [returned],
    [hasMore], [total] and the request's [limit] and [offset] is checked. *)
Theorem pagination_metadata_accepts (v : JS.value) :
  accepts paginationMetadataSchema v
  <-> exists page, v = VObj page /\ paginationShape page.
Proof.
  unfold paginationMetadataSchema, z.object, paginationShape.
  rewrite accepts_object.
  split; intros (page & -> & H); exists page; (split; [reflexivity|]).
  - destruct H as [H _]. revert H. fields_unfold.
    rewrite !accepts_optional, !accepts_nonnegative_int, accepts_boolean. tauto.
  - split; [|reflexivity]. revert H. fields_unfold.
    rewrite !accepts_optional, !accepts_nonnegative_int, accepts_boolean. tauto.
Qed.

(** C2 fails as stated: the page [{total: 0, returned: 1, hasMore: true,
    currentOffset: 0}] is accepted, and no request [limit] and nonnegative
    [offset] make it satisfy the pagination invariant. *)
Lemma pagination_invariant_not_enforced :
  accepts paginationMetadataSchema
    (VObj [("total", num 0); ("returned", num 1); ("hasMore", VBool true);
           ("currentOffset", num 0)])
  /\ ~ exists limit offset,
         0 <= offset
         /\ paginationInvariant limit offset
              [("total", num 0); ("returned", num 1); ("hasMore", VBool true);
               ("currentOffset", num 0)].
Proof.
  split.
  - eexists. reflexivity.
  - intros (limit & offset & Ho & total & returned & hasMore & Ht & Hr & Hh & _ & Hiff).
    assert (total = 0) by (apply (isInt_unique (num 0)); [exact Ht | apply isInt_num]).
    assert (returned = 1) by (apply (isInt_unique (num 1)); [exact Hr | apply isInt_num]).
    assert (hasMore = true) by (unfold get in Hh; simpl in Hh; congruence).
    subst. destruct Hiff as [Hiff _]. specialize (Hiff eq_refl). lia.
Qed.

(* ================================================================= *)
(** ** Symbol kinds *)

(** C5, as the code has it.  [symbolKindCategorySchema] accepts a string
    exactly when it is one of its eighteen kinds, which are the seventeen
    kinds of the specification's vocabulary and [decorator]. *)
Theorem symbol_kind_category_accepts (s : string) :
  (accepts symbolKindCategorySchema (VStr s) <-> In s symbolKindCategories)
  /\ (In s symbolKindCategories <-> In s specSymbolKinds \/ s = "decorator").
Proof.
  split.
  - unfold symbolKindCategorySchema. rewrite accepts_enum. split.
    + intros (s' & E & H). injection E as <-. exact H.
    + eauto.
  - unfold symbolKindCategories, specSymbolKinds. simpl. intuition.
Qed.

(** C5 fails as stated: [decorator] is accepted and is not one of the
    seventeen kinds. *)
Lemma symbol_kind_decorator_accepted :
  accepts symbolKindCategorySchema (VStr "decorator")
  /\ ~ In "decorator" specSymbolKinds.
Proof.
  split.
  - eexists. reflexivity.
  - unfold specSymbolKinds. simpl. intuition discriminate.
Qed.

(* ================================================================= *)
(** ** Import resolution *)

(** C6.  [importTypeSchema] accepts a string exactly when it is one of
    relative, workspace, alias, external, builtin; and
    [importResolutionSchema] accepts exactly the objects with a string
    [source], a boolean [isExternal], one of those five strings as
    [importType], and a [resolvedPath] that is absent or a string. *)
Theorem import_resolution_accepts :
  (forall s,
      accepts importTypeSchema (VStr s)
      <-> In s ["relative"; "workspace"; "alias"; "external"; "builtin"])
  /\ (forall v,
        accepts importResolutionSchema v
        <-> exists r,
              v = VObj r
              /\ isString (get r "source")
              /\ isBoolean (get r "isExternal")
              /\ (exists s, get r "importType" = VStr s
                            /\ In s ["relative"; "workspace"; "alias";
                                     "external"; "builtin"])
              /\ (get r "resolvedPath" = VUndefined
                  \/ isString (get r "resolvedPath"))).
Proof.
  split.
  - intros s. unfold importTypeSchema. rewrite accepts_enum. split.
    + intros (s' & E & H). injection E as <-. exact H.
    + eauto.
  - intros v. unfold importResolutionSchema, z.object. rewrite accepts_object.
    split; intros (r & -> & H); exists r; (split; [reflexivity|]).
    + destruct H as [H _]. revert H. fields_unfold.
      unfold importTypeSchema.
      rewrite accepts_optional, !accepts_string, accepts_boolean, accepts_enum.
      tauto.
    + split; [|reflexivity]. revert H. fields_unfold.
      unfold importTypeSchema.
      rewrite accepts_optional, !accepts_string, accepts_boolean, accepts_enum.
      tauto.
Qed.

(* ================================================================= *)
(** ** Traversal depth *)

(** C3.  For getDependencies and getDependents, an input whose other keys
    are acceptable is accepted exactly when [depth] is omitted or is an
    integer from 0 to 10; an integer [depth] below 0 or above 10 is
    rejected whatever the other keys hold; an input that omits [depth] is
    accepted. *)
Theorem dependency_depth_bounds (schema : z.ZodType) :
  In schema dependencyParamsSchemas ->
  (forall data,
      otherFieldsAccept schema ["depth"] data ->
      (accepts schema (VObj data)
       <-> get data "depth" = VUndefined \/ intBetween 0 10 (get data "depth")))
  /\ (forall data n,
        isInt (get data "depth") n ->
        n < 0 \/ 10 < n ->
        rejects schema (VObj data))
  /\ (forall data,
        get data "depth" = VUndefined ->
        otherFieldsAccept schema ["depth"] data ->
        accepts schema (VObj data)).
Proof.
  set (t := z.number |> z.int |> z.nonnegative |> z.max 10 |> z.optional).
  assert (Ht : forall v, accepts t v <-> v = VUndefined \/ intBetween 0 10 v).
  { intros v. unfold t. rewrite accepts_optional, accepts_nonnegative_max. tauto. }
  assert (G : forall shape,
             uniqueKeys (map fst shape) = true ->
             field shape "depth" = Some t ->
             (forall data,
                 otherFieldsAccept (z.object shape) ["depth"] data ->
                 (accepts (z.object shape) (VObj data)
                  <-> get data "depth" = VUndefined
                      \/ intBetween 0 10 (get data "depth")))
             /\ (forall data n,
                   isInt (get data "depth") n ->
                   n < 0 \/ 10 < n ->
                   rejects (z.object shape) (VObj data))
             /\ (forall data,
                   get data "depth" = VUndefined ->
                   otherFieldsAccept (z.object shape) ["depth"] data ->
                   accepts (z.object shape) (VObj data))).
  { intros shape U HF. repeat split.
    - intros HA. rewrite <- Ht.
      apply (keyed_object_accepts shape data "depth" t U HF); assumption.
    - intros HD. rewrite <- Ht in HD.
      apply (keyed_object_accepts shape data "depth" t U HF); assumption.
    - intros data n Hn Hr. apply (keyed_object_rejects shape data "depth" t HF).
      rewrite Ht. intros [E|B].
      + exact (not_undefined_of_isInt _ _ Hn E).
      + apply (intBetween_of_isInt 0 10 n _ Hn) in B. lia.
    - intros data E HO.
      apply (keyed_object_accepts shape data "depth" t U HF HO).
      apply Ht. left. exact E. }
  intros H. simpl in H.
  destruct H as [<-|[<-|[]]]; apply G; reflexivity.
Qed.

(** getDependencies: depth 0 is accepted, depth 11 rejected, no depth
    accepted. *)
Lemma dependency_depth_witness :
  In getDependenciesParamsSchema dependencyParamsSchemas
  /\ accepts getDependenciesParamsSchema
       (VObj [("filePath", VStr "src/index.ts"); ("depth", num 0)])
  /\ rejects getDependenciesParamsSchema
       (VObj [("filePath", VStr "src/index.ts"); ("depth", num 11)])
  /\ accepts getDependenciesParamsSchema (VObj [("filePath", VStr "src/index.ts")]).
Proof.
  assert (HI : In getDependenciesParamsSchema dependencyParamsSchemas)
    by (left; reflexivity).
  destruct (dependency_depth_bounds _ HI) as (HA & HR & HO).
  split; [exact HI|]. repeat split.
  - apply HA.
    + unfold otherFieldsAccept, fieldsAccept. simpl.
      repeat constructor; eexists; reflexivity.
    + right. exists 0. split; [apply isInt_num | lia].
  - apply (HR _ 11); [apply isInt_num | lia].
  - apply HO.
    + reflexivity.
    + unfold otherFieldsAccept, fieldsAccept. simpl.
      repeat constructor; eexists; reflexivity.
Defined.

(** C4, as the code has it.  For impactAnalysis, an input whose other keys
    are acceptable is accepted exactly when [depth] is omitted or is an
    integer from 1 to 5; an integer [depth] above 5 is rejected; an input
    that omits [depth] parses with [depth] set to 3; and a successful parse
    of an input that omits one of excludeTests, excludeGenerated,
    includeDirectDependents, includeTransitiveDependents,
    analyzeBreakingChanges holds [true] under that key. *)
Theorem impact_analysis_depth_and_defaults :
  (forall data,
      otherFieldsAccept impactAnalysisParamsSchema ["depth"] data ->
      (accepts impactAnalysisParamsSchema (VObj data)
       <-> get data "depth" = VUndefined \/ intBetween 1 5 (get data "depth")))
  /\ (forall data n,
        isInt (get data "depth") n ->
        5 < n ->
        rejects impactAnalysisParamsSchema (VObj data))
  /\ (forall data,
        get data "depth" = VUndefined ->
        otherFieldsAccept impactAnalysisParamsSchema ["depth"] data ->
        exists out,
          z.safeParse impactAnalysisParamsSchema (VObj data) = z.Success (VObj out)
          /\ get out "depth" = num 3)
  /\ (forall data out toggle,
        In toggle impactAnalysisToggles ->
        get data toggle = VUndefined ->
        z.safeParse impactAnalysisParamsSchema (VObj data) = z.Success out ->
        exists result, out = VObj result /\ get result toggle = VBool true).
Proof.
  set (t := z.number |> z.int |> z.min 1 |> z.max 5 |> z.default (num 3)).
  assert (Ht : forall v, accepts t v <-> v = VUndefined \/ intBetween 1 5 v).
  { intros v. unfold t. rewrite accepts_default, !accepts_int_range. split.
    - intros [[-> _]|[_ H]]; auto.
    - intros [->|H].
      + left. split; [reflexivity|]. exists 3. split; [apply isInt_num | lia].
      + right. split; [|exact H]. intros ->.
        destruct H as (n & Hn & _). exact (not_undefined_of_isInt _ _ Hn eq_refl). }
  assert (HF : field (shapeOf impactAnalysisParamsSchema) "depth" = Some t)
    by reflexivity.
  assert (U : uniqueKeys (map fst (shapeOf impactAnalysisParamsSchema)) = true)
    by reflexivity.
  unfold impactAnalysisParamsSchema in *. simpl shapeOf in *.
  repeat split.
  - intros HA. rewrite <- Ht.
    apply (keyed_object_accepts _ data "depth" t U HF); assumption.
  - intros HD. rewrite <- Ht in HD.
    apply (keyed_object_accepts _ data "depth" t U HF); assumption.
  - intros data n Hn Hr. apply (keyed_object_rejects _ data "depth" t HF).
    rewrite Ht. intros [E|B].
    + exact (not_undefined_of_isInt _ _ Hn E).
    + apply (intBetween_of_isInt 1 5 n _ Hn) in B. lia.
  - intros data E HO.
    exact (omitted_key_defaults _ data "depth" t (num 3) U HF eq_refl E HO).
  - intros data out toggle HT E HP.
    assert (HD : z.safeParse (z.boolean |> z.default (VBool true)) (get data toggle)
                 = z.Success (VBool true)) by (rewrite E; reflexivity).
    simpl in HT.
    repeat (destruct HT as [<-|HT];
            [match type of E with
             | get data ?k = _ =>
                 exact (object_output _ data out k
                          (z.boolean |> z.default (VBool true)) (VBool true)
                          HP U eq_refl HD)
             end|]).
    contradiction.
Qed.

(** impactAnalysis: depth 5 is accepted, depth 6 rejected, no depth gives
    3, and an omitted [excludeTests] comes out [true]. *)
Lemma impact_analysis_witness :
  accepts impactAnalysisParamsSchema (VObj [("symbolName", VStr "run"); ("depth", num 5)])
  /\ rejects impactAnalysisParamsSchema (VObj [("symbolName", VStr "run"); ("depth", num 6)])
  /\ (exists out,
        z.safeParse impactAnalysisParamsSchema (VObj [("symbolName", VStr "run")])
        = z.Success (VObj out)
        /\ get out "depth" = num 3)
  /\ (exists result,
        VObj [("includeDirectDependents", VBool false);
              ("includeTransitiveDependents", VBool true); ("depth", num 3);
              ("excludeTests", VBool true); ("excludeGenerated", VBool true);
              ("analyzeBreakingChanges", VBool true)]
        = VObj result
        /\ get result "excludeTests" = VBool true).
Proof.
  destruct impact_analysis_depth_and_defaults as (HA & HR & HD & HT).
  assert (HO : forall v,
             otherFieldsAccept impactAnalysisParamsSchema ["depth"]
               [("symbolName", VStr "run"); ("depth", v)]).
  { intros v. unfold otherFieldsAccept, fieldsAccept. simpl.
    repeat constructor; eexists; reflexivity. }
  repeat split.
  - apply HA; [apply HO|].
    right. exists 5. split; [apply isInt_num | lia].
  - apply (HR _ 6); [apply isInt_num | lia].
  - apply HD; [reflexivity|].
    unfold otherFieldsAccept, fieldsAccept. simpl.
    repeat constructor; eexists; reflexivity.
  - apply (HT [("includeDirectDependents", VBool false)] _ "excludeTests").
    + left; reflexivity.
    + reflexivity.
    + reflexivity.
Defined.

(** C4 fails as stated: 0 is an integer depth not above the limit of 5,
    and the input whose only key is [depth: 0] is rejected, although the
    same input without [depth] is accepted. *)
Lemma impact_analysis_depth_zero_rejected :
  0 <= 5
  /\ accepts impactAnalysisParamsSchema (VObj [])
  /\ z.safeParse impactAnalysisParamsSchema (VObj [("depth", num 0)])
     = z.Failure [z.too_small].
Proof.
  split; [lia|]. split; [eexists|]; reflexivity.
Qed.

(* ================================================================= *)
(** ** Indexing response *)

Section IndexingResponse.

Lemma relationshipFailure_accepts (v : JS.value) :
  accepts relationshipFailureSchema v
  <-> exists entry,
        v = VObj entry
        /\ isString (get entry "file")
        /\ nonnegativeInt (get entry "failedCount")
        /\ nonnegativeInt (get entry "createdCount")
        /\ isBoolean (get entry "isTransient").
Proof.
  unfold relationshipFailureSchema, z.object. rewrite accepts_object.
  split; intros (entry & -> & H); exists entry; (split; [reflexivity|]).
  - destruct H as [H _]. revert H. fields_unfold.
    rewrite !accepts_nonnegative_int, accepts_string, accepts_boolean. tauto.
  - split; [|reflexivity]. revert H. fields_unfold.
    rewrite !accepts_nonnegative_int, accepts_string, accepts_boolean. tauto.
Qed.

Lemma relationshipSummary_accepts (v : JS.value) :
  accepts relationshipSummarySchema v
  <-> exists rel,
        v = VObj rel
        /\ nonnegativeInt (get rel "totalCreated")
        /\ nonnegativeInt (get rel "totalFailed")
        /\ exists entries,
             get rel "filesWithFailures" = VArr entries
             /\ Forall (accepts relationshipFailureSchema) entries.
Proof.
  unfold relationshipSummarySchema, z.object. rewrite accepts_object.
  split; intros (rel & -> & H); exists rel; (split; [reflexivity|]).
  - destruct H as [H _]. revert H. fields_unfold.
    rewrite !accepts_nonnegative_int, accepts_array. tauto.
  - split; [|reflexivity]. revert H. fields_unfold.
    rewrite !accepts_nonnegative_int, accepts_array. tauto.
Qed.

Lemma nonnegativeInt_defined (v : JS.value) : nonnegativeInt v -> v <> VUndefined.
Proof. intros (n & Hn & _). exact (not_undefined_of_isInt v n Hn). Qed.

End IndexingResponse.

(** C7.  [indexingResponseSchema] rejects a response without
    [relationships], a response whose [relationships] lacks [totalCreated],
    [totalFailed] or [filesWithFailures], and a response whose [processed]
    or [failed] is not a nonnegative integer; it accepts a response that
    omits [failedFiles] when the other keys are acceptable; every value
    [relationshipFailureSchema] accepts is an object with a string [file],
    nonnegative integers [failedCount] and [createdCount] and a boolean
    [isTransient], and every entry of [relationships.filesWithFailures] of
    an accepted response is such a value. *)
Theorem indexing_response_contract :
  (forall data,
      get data "relationships" = VUndefined ->
      rejects indexingResponseSchema (VObj data))
  /\ (forall data rel k,
        get data "relationships" = VObj rel ->
        In k ["totalCreated"; "totalFailed"; "filesWithFailures"] ->
        get rel k = VUndefined ->
        rejects indexingResponseSchema (VObj data))
  /\ (forall data,
        ~ nonnegativeInt (get data "processed") ->
        rejects indexingResponseSchema (VObj data))
  /\ (forall data,
        ~ nonnegativeInt (get data "failed") ->
        rejects indexingResponseSchema (VObj data))
  /\ (forall data,
        get data "failedFiles" = VUndefined ->
        otherFieldsAccept indexingResponseSchema ["failedFiles"] data ->
        accepts indexingResponseSchema (VObj data))
  /\ (forall v,
        accepts relationshipFailureSchema v ->
        exists entry,
          v = VObj entry
          /\ nonnegativeInt (get entry "failedCount")
          /\ nonnegativeInt (get entry "createdCount")
          /\ isBoolean (get entry "isTransient"))
  /\ (forall data,
        accepts indexingResponseSchema (VObj data) ->
        exists rel entries,
          get data "relationships" = VObj rel
          /\ get rel "filesWithFailures" = VArr entries
          /\ Forall (accepts relationshipFailureSchema) entries).
Proof.
  pose (shape := shapeOf indexingResponseSchema).
  assert (U : uniqueKeys (map fst shape) = true) by reflexivity.
  change indexingResponseSchema with (z.object shape).
  split; [|split; [|split; [|split; [|split; [|split]]]]].
  - intros data E.
    apply (keyed_object_rejects shape data "relationships"
             relationshipSummarySchema eq_refl).
    rewrite E, relationshipSummary_accepts. intros (rel & Hrel & _). discriminate.
  - intros data rel k E Hk Hu.
    apply (keyed_object_rejects shape data "relationships"
             relationshipSummarySchema eq_refl).
    rewrite E, relationshipSummary_accepts.
    intros (rel' & Hrel & H1 & H2 & entries & H3 & _). injection Hrel as <-.
    simpl in Hk. destruct Hk as [<-|[<-|[<-|[]]]].
    + exact (nonnegativeInt_defined _ H1 Hu).
    + exact (nonnegativeInt_defined _ H2 Hu).
    + congruence.
  - intros data H.
    apply (keyed_object_rejects shape data "processed"
             (z.number |> z.int |> z.nonnegative) eq_refl).
    rewrite accepts_nonnegative_int. exact H.
  - intros data H.
    apply (keyed_object_rejects shape data "failed"
             (z.number |> z.int |> z.nonnegative) eq_refl).
    rewrite accepts_nonnegative_int. exact H.
  - intros data E HO.
    apply (keyed_object_accepts shape data "failedFiles"
             (z.array fileFailureSchema |> z.optional) U eq_refl HO).
    apply accepts_optional. left. exact E.
  - intros v H. apply relationshipFailure_accepts in H.
    destruct H as (entry & ? & _ & ? & ? & ?). exists entry. auto.
  - intros data H. apply accepts_strip in H.
    pose proof (field_accepts shape data "relationships" relationshipSummarySchema
                  H eq_refl) as HR.
    apply relationshipSummary_accepts in HR.
    destruct HR as (rel & ? & _ & _ & entries & ? & ?). exists rel, entries. auto.
Qed.

(** A response without [relationships] and one with [processed: -1] are
    rejected; a response without [failedFiles] is accepted. *)
Lemma indexing_response_witness :
  rejects indexingResponseSchema
    (VObj [("processed", num 3); ("failed", num 0); ("projectId", VStr "p");
           ("branchName", VStr "main")])
  /\ rejects indexingResponseSchema
       (VObj [("processed", VNum (Finite (-1 # 1))); ("failed", num 0);
              ("projectId", VStr "p"); ("branchName", VStr "main");
              ("relationships",
               VObj [("totalCreated", num 0); ("totalFailed", num 0);
                     ("filesWithFailures", VArr [])])])
  /\ accepts indexingResponseSchema
       (VObj [("processed", num 3); ("failed", num 0); ("projectId", VStr "p");
              ("branchName", VStr "main");
              ("relationships",
               VObj [("totalCreated", num 7); ("totalFailed", num 1);
                     ("filesWithFailures",
                      VArr [VObj [("file", VStr "a.ts"); ("failedCount", num 1);
                                  ("createdCount", num 2);
                                  ("isTransient", VBool false)]])])]).
Proof.
  destruct indexing_response_contract as (H1 & _ & H3 & _ & H5 & _).
  repeat split.
  - apply H1. reflexivity.
  - apply H3. intros (n & (q & E & Hq) & Hn).
    unfold get in E. simpl in E. injection E as <-.
    unfold Qeq in Hq. simpl in Hq. lia.
  - apply H5; [reflexivity|].
    unfold otherFieldsAccept, fieldsAccept. simpl.
    repeat constructor; eexists; reflexivity.
Defined.

(* ================================================================= *)
(** ** Ping, and unknown keys in the other parameter schemas *)

Section UnknownKeys.

Lemma ping_params_accepts (v : JS.value) :
  accepts pingParamsSchema v <-> v = VObj [].
Proof.
  unfold pingParamsSchema. simpl. rewrite accepts_object. split.
  - intros (data & -> & _ & H). unfold z.unknownKeyIssues in H.
    rewrite extraKeys_empty_shape in H.
    destruct data as [|[k x] data]; [reflexivity | discriminate].
  - intros ->. exists []. repeat split. constructor.
Qed.

Lemma strip_object_unknown_key (shape : list (string * z.ZodType))
    (data : JS.object) (k : string) (v : JS.value) :
  field shape k = None ->
  z.safeParse (z.object shape) (VObj ((k, v) :: data))
  = z.safeParse (z.object shape) (VObj data)
  /\ forall out,
       z.safeParse (z.object shape) (VObj ((k, v) :: data)) = z.Success out ->
       exists result, out = VObj result /\ has result k = false.
Proof.
  intros HF. split; [apply strip_ignores_unknown_key; exact HF|].
  intros out H. apply safeParse_object_success in H.
  destruct H as (d & _ & _ & _ & ->). eexists. split; [reflexivity|].
  apply get_finalObject_unknown. exact HF.
Qed.

End UnknownKeys.

(** C8.  [pingParamsSchema] accepts an object exactly when it has no key,
    so an object with any key is rejected; each of the other ten executor
    parameter schemas parses an object with one more key that its shape
    does not know exactly as it parses the object without it, and the
    parsed output does not have that key; [pingResultSchema] accepts
    exactly the objects whose [pong] is [true]. *)
Theorem ping_strict_others_strip :
  (forall data, accepts pingParamsSchema (VObj data) <-> data = [])
  /\ (forall data k v, rejects pingParamsSchema (VObj ((k, v) :: data)))
  /\ (forall schema data k v,
        In schema otherExecutorParamsSchemas ->
        field (shapeOf schema) k = None ->
        z.safeParse schema (VObj ((k, v) :: data)) = z.safeParse schema (VObj data)
        /\ forall out,
             z.safeParse schema (VObj ((k, v) :: data)) = z.Success out ->
             exists result, out = VObj result /\ has result k = false)
  /\ (forall v,
        accepts pingResultSchema v
        <-> exists result, v = VObj result /\ get result "pong" = VBool true).
Proof.
  split; [|split; [|split]].
  - intros data. rewrite ping_params_accepts. split.
    + intros E. injection E as ->. reflexivity.
    + intros ->. reflexivity.
  - intros data k v. apply rejects_iff. rewrite ping_params_accepts. discriminate.
  - intros schema data k v HI HF. simpl in HI.
    repeat (destruct HI as [<-|HI];
            [apply strip_object_unknown_key; exact HF|]).
    contradiction.
  - intros v. unfold pingResultSchema, z.object. rewrite accepts_object.
    split; intros (result & -> & H); exists result; (split; [reflexivity|]).
    + destruct H as [H _]. revert H. fields_unfold.
      rewrite accepts_literal_bool. tauto.
    + split; [|reflexivity]. revert H. fields_unfold.
      rewrite accepts_literal_bool. tauto.
Qed.

(** [{verbose: true}] is refused by ping and ignored by searchSymbols. *)
Lemma ping_strict_others_strip_witness :
  rejects pingParamsSchema (VObj [("verbose", VBool true)])
  /\ In searchSymbolsParamsSchema otherExecutorParamsSchemas
  /\ z.safeParse searchSymbolsParamsSchema
       (VObj [("verbose", VBool true); ("query", VStr "parse")])
     = z.safeParse searchSymbolsParamsSchema (VObj [("query", VStr "parse")]).
Proof.
  destruct ping_strict_others_strip as (_ & HP & HS & _).
  assert (HI : In searchSymbolsParamsSchema otherExecutorParamsSchemas)
    by (left; reflexivity).
  split; [|split].
  - apply HP.
  - exact HI.
  - apply (HS searchSymbolsParamsSchema [("query", VStr "parse")]
              "verbose" (VBool true) HI eq_refl).
Defined.

(* ================================================================= *)
(** ** Cycle length bounds *)

(** C9.  For findCircularDependencies, an input whose other keys are
    acceptable is accepted exactly when [minCycleLength] is omitted or an
    integer from 2 to 10 and [maxCycleLength] is omitted or an integer from
    2 to 10: the two conditions do not mention each other.  The input
    [{minCycleLength: 10, maxCycleLength: 2}], whose minimum exceeds its
    maximum, parses successfully. *)
Theorem cycle_length_bounds_independent :
  (forall data,
      otherFieldsAccept findCircularDependenciesParamsSchema
        ["minCycleLength"; "maxCycleLength"] data ->
      (accepts findCircularDependenciesParamsSchema (VObj data)
       <-> (get data "minCycleLength" = VUndefined
            \/ intBetween 2 10 (get data "minCycleLength"))
           /\ (get data "maxCycleLength" = VUndefined
               \/ intBetween 2 10 (get data "maxCycleLength"))))
  /\ 2 < 10
  /\ z.safeParse findCircularDependenciesParamsSchema
       (VObj [("minCycleLength", num 10); ("maxCycleLength", num 2)])
     = z.Success
         (VObj [("minCycleLength", num 10); ("maxCycleLength", num 2);
                ("limit", num 50); ("offset", num 0)]).
Proof.
  set (t := z.number |> z.int |> z.min 2 |> z.max 10 |> z.optional).
  assert (Ht : forall v, accepts t v <-> v = VUndefined \/ intBetween 2 10 v).
  { intros v. unfold t. rewrite accepts_optional, accepts_int_range. tauto. }
  pose (shape := shapeOf findCircularDependenciesParamsSchema).
  assert (U : uniqueKeys (map fst shape) = true) by reflexivity.
  split; [|split; [lia | reflexivity]].
  intros data HO. rewrite <- !Ht.
  change findCircularDependenciesParamsSchema with (z.object shape) in HO.
  change findCircularDependenciesParamsSchema with (z.object shape).
  rewrite accepts_strip. split.
  - intros H. split.
    + exact (field_accepts shape data "minCycleLength" t H eq_refl).
    + exact (field_accepts shape data "maxCycleLength" t H eq_refl).
  - intros [Hmin Hmax].
    apply (fieldsAccept_except shape data ["minCycleLength"; "maxCycleLength"] U);
      [|exact HO].
    intros k t' [<-|[<-|[]]] HF; vm_compute in HF; injection HF as <-; assumption.
Qed.

(** A minimum of 10 with a maximum of 2 is accepted next to a file path. *)
Lemma cycle_length_bounds_witness :
  accepts findCircularDependenciesParamsSchema
    (VObj [("minCycleLength", num 10); ("maxCycleLength", num 2);
           ("filePath", VStr "src/a.ts")]).
Proof.
  destruct cycle_length_bounds_independent as (H & _ & _).
  apply H.
  - unfold otherFieldsAccept, fieldsAccept. simpl.
    repeat constructor; eexists; reflexivity.
  - split; right; [exists 10 | exists 2]; (split; [apply isInt_num | lia]).
Defined.

(* ================================================================= *)
(** ** Response envelope guards *)

(** C10.  For every value [r] of type [ApiResponse<T>],
    [isSuccessResponse(r)] is true exactly when [r.success] is [true],
    [isErrorResponse(r)] is the negation of [isSuccessResponse(r)], and so
    exactly one of the two guards holds. *)
Theorem response_guards_exact_and_complementary
    (T : JS.value -> Prop) (r : JS.object) :
  ApiResponse T r ->
  (isSuccessResponse r = true <-> get r "success" = VBool true)
  /\ isErrorResponse r = negb (isSuccessResponse r)
  /\ xorb (isSuccessResponse r) (isErrorResponse r) = true.
Proof.
  unfold isSuccessResponse, isErrorResponse.
  intros [r' E _|r' error code message E _ _ _]; rewrite E; simpl.
  - tauto.
  - repeat split; discriminate.
Qed.

(** The guards on a success envelope and on an error envelope. *)
Lemma response_guards_witness :
  isSuccessResponse [("success", VBool true); ("data", VStr "pong")] = true
  /\ isErrorResponse [("success", VBool true); ("data", VStr "pong")] = false
  /\ isErrorResponse
       [("success", VBool false);
        ("error", VObj [("code", VStr "NOT_FOUND"); ("message", VStr "no such file")])]
     = true.
Proof.
  pose (ok := [("success", VBool true); ("data", VStr "pong")]).
  pose (failed :=
          [("success", VBool false);
           ("error", VObj [("code", VStr "NOT_FOUND");
                           ("message", VStr "no such file")])]).
  pose proof (response_guards_exact_and_complementary isString ok
                (api_success isString ok eq_refl (ex_intro _ "pong" eq_refl)))
    as (H1 & H2 & _).
  pose proof (response_guards_exact_and_complementary isString failed
                (api_error isString failed
                   [("code", VStr "NOT_FOUND"); ("message", VStr "no such file")]
                   "NOT_FOUND" "no such file" eq_refl eq_refl eq_refl eq_refl))
    as (_ & H3 & _).
  change (isSuccessResponse ok = true
          /\ isErrorResponse ok = false /\ isErrorResponse failed = true).
  split; [apply H1; reflexivity|]. split.
  - rewrite H2. reflexivity.
  - rewrite H3. reflexivity.
Defined.

(* ================================================================= *)
(** ** The package as a whole: what a parse returns *)

Section ParseOutput.






End ParseOutput.

(* ================================================================= *)
(** ** Parsing a parsed value again *)

Section Idempotence.


Lemma mergeArray_success (element : z.ZodType) (items : list JS.value)
    (out : JS.value) :
  z.mergeArray (map (z.safeParse element) items) = z.Success out ->
  exists parsed,
    out = VArr parsed
    /\ Forall2 (fun v x => z.safeParse element v = z.Success x) items parsed.
Proof.
  unfold z.mergeArray. intros H. apply finish_success in H as [H <-].
  eexists. split; [reflexivity|].
  apply flat_map_nil in H. rewrite Forall_map in H.
  induction items as [|a items IH]; simpl; [constructor|].
  inversion H as [|? ? H1 H2]; subst.
  apply issuesOf_nil in H1 as [d Hd]. rewrite Hd. simpl.
  constructor; [exact Hd | apply IH; exact H2].
Qed.





End Idempotence.



(* ================================================================= *)
(** ** Parameters: only declared keys count, and given values are kept *)

Section DeclaredKeys.

Lemma In_field_defined (shape : list (string * z.ZodType)) (k : string)
    (t : z.ZodType) :
  In (k, t) shape -> field shape k <> None.
Proof.
  intros HI HN. apply field_None in HN.
  assert (E : existsb (String.eqb k) (map fst shape) = true).
  { apply existsb_eqb_In. apply (in_map fst) in HI. exact HI. }
  congruence.
Qed.

Lemma strip_object_declared_keys (shape : list (string * z.ZodType))
    (d1 d2 : JS.object) :
  (forall k, field shape k <> None -> lookup d1 k = lookup d2 k) ->
  z.safeParse (z.object shape) (VObj d1) = z.safeParse (z.object shape) (VObj d2).
Proof.
  intros H. unfold z.object. rewrite !safeParse_object.
  assert (E : pairsOf shape d1 = pairsOf shape d2).
  { unfold pairsOf. apply map_ext_in. intros [k t] HI. simpl.
    unfold get, has. rewrite (H k (In_field_defined shape k t HI)). reflexivity. }
  rewrite E. reflexivity.
Qed.

(** A validator without default or object inside returns its input. *)
Lemma plainValidator_returns_input (schema : z.ZodType) :
  plainValidator schema = true ->
  forall v x, z.safeParse schema v = z.Success x -> x = v.
Proof.
  induction schema; intros W v x H; simpl in W; try discriminate; simpl in H.
  - destruct v; try discriminate. apply finish_success in H as [_ H]. auto.
  - destruct v; try discriminate. destruct (isNaN n); [discriminate|].
    apply finish_success in H as [_ H]. auto.
  - destruct v; try discriminate. injection H as <-. reflexivity.
  - destruct (strictEquals v _); [|discriminate]. injection H as <-. reflexivity.
  - destruct v; try discriminate. destruct (existsb _ _); [|discriminate].
    injection H as <-. reflexivity.
  - destruct v; try discriminate.
    apply mergeArray_success in H as (parsed & -> & H). f_equal.
    induction H as [|a b items parsed Hab _ IH]; [reflexivity|].
    rewrite (IHschema W a b Hab), IH. reflexivity.
  - destruct v; try (apply (IHschema W _ _ H)). injection H as <-. reflexivity.
Qed.

Lemma plainOrDefault_returns_input (schema : z.ZodType) (v x : JS.value) :
  plainOrDefault schema = true ->
  v <> VUndefined ->
  z.safeParse schema v = z.Success x ->
  x = v.
Proof.
  intros W Hv H.
  destruct schema;
    try (match type of H with
         | z.safeParse ?s _ = _ =>
             exact (plainValidator_returns_input s W v x H)
         end).
  change (plainValidator schema = true) in W.
  destruct v; simpl in H;
    try (exact (plainValidator_returns_input schema W _ x H)).
  exfalso. apply Hv. reflexivity.
Qed.

Lemma supplied_value_returned (shape : list (string * z.ZodType))
    (data : JS.object) (out : JS.value) (k : string) (t : z.ZodType) :
  uniqueKeys (map fst shape) = true ->
  forallb (fun entry => plainOrDefault (snd entry)) shape = true ->
  z.safeParse (z.object shape) (VObj data) = z.Success out ->
  field shape k = Some t ->
  get data k <> VUndefined ->
  exists result, out = VObj result /\ get result k = get data k.
Proof.
  intros U W H HF Hv.
  assert (HA : accepts (z.object shape) (VObj data)) by (exists out; exact H).
  apply accepts_strip in HA.
  destruct (field_accepts shape data k t HA HF) as [x Hx].
  rewrite forallb_forall in W.
  pose proof (W (k, t) (field_In shape k t HF)) as Wt. simpl in Wt.
  pose proof (plainOrDefault_returns_input t _ x Wt Hv Hx) as E. subst x.
  exact (object_output (z.object shape) data out k t _ H U HF Hx).
Qed.

End DeclaredKeys.

(** X2.  For each executor parameter schema other than ping's, two
    inputs that hold the same thing under every declared key parse to the
    same result: undeclared keys and the order of the keys never matter. *)
Theorem declared_keys_decide_parse (schema : z.ZodType) (d1 d2 : JS.object) :
  In schema otherExecutorParamsSchemas ->
  (forall k, field (shapeOf schema) k <> None -> lookup d1 k = lookup d2 k) ->
  z.safeParse schema (VObj d1) = z.safeParse schema (VObj d2).
Proof.
  intros HI. simpl in HI.
  repeat (destruct HI as [<-|HI]; [apply strip_object_declared_keys|]).
  contradiction.
Qed.

(** The same search written in another key order, with a stray key. *)
Lemma declared_keys_decide_parse_witness :
  z.safeParse searchSymbolsParamsSchema
    (VObj [("query", VStr "parse"); ("limit", num 10)])
  = z.safeParse searchSymbolsParamsSchema
      (VObj [("limit", num 10); ("verbose", VBool true); ("query", VStr "parse")]).
Proof.
  apply declared_keys_decide_parse.
  - left. reflexivity.
  - intros k. cbn [shapeOf searchSymbolsParamsSchema z.object field lookup].
    repeat match goal with
           | |- context [String.eqb k ?s] =>
               destruct (String.eqb_spec k s) as [->|?]; [reflexivity|]
           end.
    intros Hk. exfalso. apply Hk. reflexivity.
Defined.

(** X3.  For each executor parameter schema other than ping's, a
    successful parse returns under every declared key that the input
    supplies (holds a value other than [undefined]) exactly the supplied
    value: validation fills in defaults but never rewrites a parameter. *)
Theorem supplied_parameters_returned (schema : z.ZodType) (data : JS.object)
    (out : JS.value) (k : string) (t : z.ZodType) :
  In schema otherExecutorParamsSchemas ->
  z.safeParse schema (VObj data) = z.Success out ->
  field (shapeOf schema) k = Some t ->
  get data k <> VUndefined ->
  exists result, out = VObj result /\ get result k = get data k.
Proof.
  intros HI. simpl in HI.
  repeat (destruct HI as [<-|HI];
          [apply supplied_value_returned; reflexivity|]).
  contradiction.
Qed.

(** getCallGraph keeps a supplied depth of 7. *)
Lemma supplied_parameters_returned_witness :
  exists result,
    VObj [("symbolName", VStr "run"); ("direction", VStr "both");
          ("depth", num 7); ("limit", num 25); ("offset", num 0)]
    = VObj result
    /\ get result "depth" = num 7.
Proof.
  apply (supplied_parameters_returned getCallGraphParamsSchema
           [("depth", num 7); ("symbolName", VStr "run")] _ "depth"
           (z.number |> z.int |> z.positive |> z.max 10 |> z.default (num 3))).
  - simpl. tauto.
  - reflexivity.
  - reflexivity.
  - discriminate.
Defined.

(* ================================================================= *)
(** ** What a consumer can rely on in parsed parameters *)

Section ParsedParameters.

(** A successful object parse: the input is an object, and under each
    declared key the output holds what the key's validator returned. *)
Lemma object_field_output (shape : list (string * z.ZodType))
    (input out : JS.value) (k : string) (t : z.ZodType) :
  uniqueKeys (map fst shape) = true ->
  field shape k = Some t ->
  z.safeParse (z.object shape) input = z.Success out ->
  exists data result x,
    input = VObj data
    /\ out = VObj result
    /\ z.safeParse t (get data k) = z.Success x
    /\ get result k = x.
Proof.
  intros U HF H. pose proof H as H'.
  apply safeParse_object_success in H' as (data & -> & HA & _ & ->).
  destruct (field_accepts shape data k t HA HF) as [x Hx].
  exists data, (z.finalObject (pairsOf shape data)), x.
  repeat split; auto. apply (get_finalObject shape data k t x U HF Hx).
Qed.

Lemma limitSchema_output (d : Z) (v x : JS.value) :
  z.safeParse (limitSchema d) v = z.Success x -> intBetween 1 100 x.
Proof.
  unfold limitSchema. cbn [z.default z.safeParse]. intros H.
  assert (G : forall w, z.safeParse (z.number |> z.int |> z.positive |> z.max 100) w
                        = z.Success x -> intBetween 1 100 x).
  { intros w Hw. assert (HA : accepts (z.number |> z.int |> z.positive |> z.max 100) w)
      by (exists x; exact Hw).
    apply accepts_positive_max in HA.
    apply (safeParse_int [z.NumMin 0 false; z.NumMax 100 true]) in Hw as [-> _].
    exact HA. }
  destruct v; eapply G; exact H.
Qed.

Lemma offsetSchema_output (v x : JS.value) :
  z.safeParse offsetSchema v = z.Success x -> nonnegativeInt x.
Proof.
  unfold offsetSchema. cbn [z.default z.safeParse]. intros H.
  assert (G : forall w, z.safeParse (z.number |> z.int |> z.nonnegative) w
                        = z.Success x -> nonnegativeInt x).
  { intros w Hw. assert (HA : accepts (z.number |> z.int |> z.nonnegative) w)
      by (exists x; exact Hw).
    apply accepts_nonnegative_int in HA.
    apply (safeParse_int [z.NumMin 0 true]) in Hw as [-> _]. exact HA. }
  destruct v; eapply G; exact H.
Qed.

Lemma paginated_object_output (shape : list (string * z.ZodType)) (d : Z)
    (input out : JS.value) :
  uniqueKeys (map fst shape) = true ->
  field shape "limit" = Some (limitSchema d) ->
  field shape "offset" = Some offsetSchema ->
  z.safeParse (z.object shape) input = z.Success out ->
  exists result,
    out = VObj result
    /\ intBetween 1 100 (get result "limit")
    /\ nonnegativeInt (get result "offset").
Proof.
  intros U HL HO H.
  destruct (object_field_output shape input out "limit" _ U HL H)
    as (data & result & x & -> & -> & Hx & Gx).
  destruct (object_field_output shape _ _ "offset" _ U HO H)
    as (data' & result' & y & E1 & E2 & Hy & Gy).
  injection E1 as <-. injection E2 as <-.
  exists result. split; [reflexivity|]. split.
  - rewrite Gx. exact (limitSchema_output d _ x Hx).
  - rewrite Gy. exact (offsetSchema_output _ y Hy).
Qed.

End ParsedParameters.

(** X4.  Whatever an input of one of the seven paginated parameter
    schemas holds, a successful parse returns an object whose [limit] is
    an integer from 1 to 100 and whose [offset] is a nonnegative integer:
    both are always present and in range after validation. *)
Theorem paginated_output_in_range (schema : z.ZodType) (d : Z)
    (input out : JS.value) :
  In (schema, d) paginatedParamsSchemas ->
  z.safeParse schema input = z.Success out ->
  exists result,
    out = VObj result
    /\ intBetween 1 100 (get result "limit")
    /\ nonnegativeInt (get result "offset").
Proof.
  intros HI. simpl in HI.
  repeat (destruct HI as [HI|HI];
          [apply pair_equal_spec in HI as [<- <-];
           eapply paginated_object_output; reflexivity|]).
  contradiction.
Qed.

(** findOrphanedCode called with nothing comes out with limit 50 and
    offset 0. *)
Lemma paginated_output_in_range_witness :
  exists result,
    VObj [("excludeTests", VBool true); ("limit", num 50); ("offset", num 0)]
    = VObj result
    /\ intBetween 1 100 (get result "limit")
    /\ nonnegativeInt (get result "offset").
Proof.
  apply (paginated_output_in_range findOrphanedCodeParamsSchema 50 (VObj [])).
  - simpl. tauto.
  - reflexivity.
Defined.

(* ================================================================= *)
(** ** Strings and non-integer numbers *)

Section StringsAndReals.

Lemma accepts_positive_int (v : JS.value) :
  accepts (z.number |> z.int |> z.positive) v <-> exists n, isInt v n /\ 1 <= n.
Proof.
  simpl. rewrite accepts_int.
  split; intros (n & Hn & H); exists n; (split; [exact Hn|]).
  - inversion H; subst. simpl in *. lia.
  - repeat constructor; simpl; lia.
Qed.

Lemma accepts_string_min (lo : nat) (v : JS.value) :
  accepts (z.string |> z.min (Z.of_nat lo)) v
  <-> exists s, v = VStr s /\ (lo <= String.length s)%nat.
Proof.
  unfold accepts. simpl. rewrite Nat2Z.id. split.
  - intros [d H]. destruct v; try discriminate. exists s. split; [reflexivity|].
    destruct (Nat.ltb_spec (String.length s) lo); [discriminate | assumption].
  - intros (s & -> & H). exists (VStr s).
    destruct (Nat.ltb_spec (String.length s) lo); [lia | reflexivity].
Qed.


(** [z.number().min(lo).max(hi)] accepts the finite numbers of the closed
    interval, integer or not, and neither [NaN] nor an infinity. *)
Lemma accepts_number_range (lo hi : Z) (v : JS.value) :
  accepts (z.number |> z.min lo |> z.max hi) v
  <-> exists q, v = VNum (Finite q) /\ (inject_Z lo <= q <= inject_Z hi)%Q.
Proof.
  unfold accepts. simpl. split.
  - intros [d H]. destruct v as [| | |x| | |]; try discriminate.
    destruct x as [|[|]|q]; try discriminate. exists q. split; [reflexivity|].
    simpl in H.
    destruct (Qle_bool (inject_Z lo) q) eqn:E1; [|discriminate].
    destruct (Qle_bool q (inject_Z hi)) eqn:E2; [|discriminate].
    apply Qle_bool_iff in E1, E2. auto.
  - intros (q & -> & H1 & H2). exists (VNum (Finite q)). simpl.
    apply Qle_bool_iff in H1, H2. rewrite H1, H2. reflexivity.
Qed.

End StringsAndReals.

(* ================================================================= *)
(** ** Parameters of the single operations *)

(** X5.  For getCallGraph, with the other keys acceptable, an input is
    accepted exactly when [depth] is omitted or an integer from 1 to 10
    (so depth 0 is refused here), and exactly when [direction] is omitted
    or one of callers, callees, both.  A successful parse always returns
    a [depth] from 1 to 10 and one of the three directions: 3 and "both"
    when the input omits them. *)
Theorem call_graph_depth_and_direction :
  (forall data,
      otherFieldsAccept getCallGraphParamsSchema ["depth"] data ->
      (accepts getCallGraphParamsSchema (VObj data)
       <-> get data "depth" = VUndefined \/ intBetween 1 10 (get data "depth")))
  /\ (forall data,
        otherFieldsAccept getCallGraphParamsSchema ["direction"] data ->
        (accepts getCallGraphParamsSchema (VObj data)
         <-> get data "direction" = VUndefined
             \/ exists s, get data "direction" = VStr s
                          /\ In s ["callers"; "callees"; "both"]))
  /\ (forall input out,
        z.safeParse getCallGraphParamsSchema input = z.Success out ->
        exists data result,
          input = VObj data
          /\ out = VObj result
          /\ intBetween 1 10 (get result "depth")
          /\ (exists s, get result "direction" = VStr s
                        /\ In s ["callers"; "callees"; "both"])
          /\ (get data "depth" = VUndefined -> get result "depth" = num 3)
          /\ (get data "direction" = VUndefined
              -> get result "direction" = VStr "both")).
Proof.
  set (td := z.number |> z.int |> z.positive |> z.max 10 |> z.default (num 3)).
  set (tr := z.enum ["callers"; "callees"; "both"] |> z.default (VStr "both")).
  pose (shape := shapeOf getCallGraphParamsSchema).
  assert (U : uniqueKeys (map fst shape) = true) by reflexivity.
  assert (Fd : field shape "depth" = Some td) by reflexivity.
  assert (Fr : field shape "direction" = Some tr) by reflexivity.
  assert (Ad : forall v, accepts td v <-> v = VUndefined \/ intBetween 1 10 v).
  { intros v. unfold td. rewrite accepts_default, !accepts_positive_max. split.
    - intros [[-> _]|[_ H]]; auto.
    - intros [->|H].
      + left. split; [reflexivity|]. exists 3. split; [apply isInt_num | lia].
      + right. split; [|exact H]. intros ->.
        destruct H as (n & Hn & _). exact (not_undefined_of_isInt _ _ Hn eq_refl). }
  assert (Ar : forall v, accepts tr v
                         <-> v = VUndefined
                             \/ exists s, v = VStr s
                                          /\ In s ["callers"; "callees"; "both"]).
  { intros v. unfold tr. rewrite accepts_default, !accepts_enum. split.
    - intros [[-> _]|[_ H]]; auto.
    - intros [->|H].
      + left. split; [reflexivity|]. exists "both". simpl. auto.
      + right. split; [|exact H]. intros ->. destruct H as (s & E & _). discriminate. }
  change getCallGraphParamsSchema with (z.object shape).
  split; [|split].
  - intros data HO. rewrite <- Ad.
    exact (keyed_object_accepts shape data "depth" td U Fd HO).
  - intros data HO. rewrite <- Ar.
    exact (keyed_object_accepts shape data "direction" tr U Fr HO).
  - intros input out H.
    destruct (object_field_output shape input out "depth" td U Fd H)
      as (data & result & x & -> & -> & Hx & Gx).
    destruct (object_field_output shape _ _ "direction" tr U Fr H)
      as (data' & result' & y & E1 & E2 & Hy & Gy).
    injection E1 as <-. injection E2 as <-.
    exists data, result. split; [reflexivity|]. split; [reflexivity|].
    rewrite Gx, Gy.
    assert (Hxd : forall w, z.safeParse (z.number |> z.int |> z.positive |> z.max 10) w
                            = z.Success x -> x = w /\ intBetween 1 10 x).
    { intros w Hw.
      assert (HA : accepts (z.number |> z.int |> z.positive |> z.max 10) w)
        by (exists x; exact Hw).
      apply accepts_positive_max in HA.
      apply (safeParse_int [z.NumMin 0 false; z.NumMax 10 true]) in Hw as [-> _].
      auto. }
    assert (Hyd : forall w, z.safeParse (z.enum ["callers"; "callees"; "both"]) w
                            = z.Success y ->
                            y = w /\ exists s, y = VStr s
                                               /\ In s ["callers"; "callees"; "both"]).
    { intros w Hw.
      assert (HA : accepts (z.enum ["callers"; "callees"; "both"]) w)
        by (exists y; exact Hw).
      apply accepts_enum in HA. destruct HA as (s & -> & Hs).
      cbn [z.enum z.safeParse] in Hw.
      destruct (existsb (String.eqb s) _); [|discriminate].
      injection Hw as <-. split; [reflexivity|]. exists s. auto. }
    unfold td in Hx. unfold tr in Hy. cbn [z.default z.safeParse] in Hx, Hy.
    repeat split.
    + destruct (get data "depth"); apply Hxd in Hx; tauto.
    + destruct (get data "direction"); apply Hyd in Hy; tauto.
    + intros E. rewrite E in Hx. apply Hxd in Hx. tauto.
    + intros E. rewrite E in Hy. apply Hyd in Hy. tauto.
Qed.

(** Depth 10 is accepted and depth 0 refused; with neither key given the
    parse returns depth 3 and direction "both". *)
Lemma call_graph_witness :
  accepts getCallGraphParamsSchema (VObj [("symbolId", VStr "s1"); ("depth", num 10)])
  /\ ~ accepts getCallGraphParamsSchema (VObj [("symbolId", VStr "s1"); ("depth", num 0)])
  /\ exists data result,
       VObj [("symbolId", VStr "s1")] = VObj data
       /\ VObj [("symbolId", VStr "s1"); ("direction", VStr "both");
                ("depth", num 3); ("limit", num 25); ("offset", num 0)]
          = VObj result
       /\ get result "depth" = num 3
       /\ get result "direction" = VStr "both".
Proof.
  destruct call_graph_depth_and_direction as (HD & _ & HO).
  assert (HF : forall v,
             otherFieldsAccept getCallGraphParamsSchema ["depth"]
               [("symbolId", VStr "s1"); ("depth", v)]).
  { intros v. unfold otherFieldsAccept, fieldsAccept. simpl.
    repeat constructor; eexists; reflexivity. }
  split; [|split].
  - apply HD; [apply HF|]. right. exists 10. split; [apply isInt_num | lia].
  - intros HA. apply HD in HA; [|apply HF].
    destruct HA as [E|(n & Hn & Hr)]; [discriminate|].
    assert (n = 0) by (apply (isInt_unique (num 0)); [exact Hn | apply isInt_num]).
    lia.
  - destruct (HO (VObj [("symbolId", VStr "s1")]) _ eq_refl)
      as (data & result & E1 & E2 & _ & _ & H1 & H2).
    injection E1 as <-. exists [("symbolId", VStr "s1")], result.
    split; [reflexivity|]. split; [exact E2|]. split; [apply H1 | apply H2]; reflexivity.
Defined.



(** X7.  For getDependencies and getDependents, with the other keys
    acceptable, an input is accepted exactly when [filePath] is a
    nonempty string; for findCircularDependencies, exactly when
    [filePath] is omitted or a nonempty string, so the empty path is
    refused even where the key is optional. *)
Theorem file_path_nonempty :
  (forall schema data,
      In schema dependencyParamsSchemas ->
      otherFieldsAccept schema ["filePath"] data ->
      (accepts schema (VObj data)
       <-> exists s, get data "filePath" = VStr s /\ (1 <= String.length s)%nat))
  /\ (forall data,
        otherFieldsAccept findCircularDependenciesParamsSchema ["filePath"] data ->
        (accepts findCircularDependenciesParamsSchema (VObj data)
         <-> get data "filePath" = VUndefined
             \/ exists s, get data "filePath" = VStr s
                          /\ (1 <= String.length s)%nat)).
Proof.
  split.
  - intros schema data HI HO. rewrite <- (accepts_string_min 1).
    simpl in HI. destruct HI as [<-|[<-|[]]].
    + pose (shape := shapeOf getDependenciesParamsSchema).
      change getDependenciesParamsSchema with (z.object shape) in HO |- *.
      exact (keyed_object_accepts shape data "filePath" _ eq_refl eq_refl HO).
    + pose (shape := shapeOf getDependentsParamsSchema).
      change getDependentsParamsSchema with (z.object shape) in HO |- *.
      exact (keyed_object_accepts shape data "filePath" _ eq_refl eq_refl HO).
  - intros data HO. rewrite <- (accepts_string_min 1), <- accepts_optional.
    pose (shape := shapeOf findCircularDependenciesParamsSchema).
    change findCircularDependenciesParamsSchema with (z.object shape) in HO |- *.
    exact (keyed_object_accepts shape data "filePath" _ eq_refl eq_refl HO).
Qed.

(** An empty path is refused by getDependents and by
    findCircularDependencies. *)
Lemma file_path_nonempty_witness :
  ~ accepts getDependentsParamsSchema (VObj [("filePath", VStr "")])
  /\ ~ accepts findCircularDependenciesParamsSchema (VObj [("filePath", VStr "")]).
Proof.
  destruct file_path_nonempty as (H1 & H2).
  assert (O1 : otherFieldsAccept getDependentsParamsSchema ["filePath"]
                 [("filePath", VStr "")]).
  { unfold otherFieldsAccept, fieldsAccept. simpl.
    repeat constructor; eexists; reflexivity. }
  assert (O2 : otherFieldsAccept findCircularDependenciesParamsSchema ["filePath"]
                 [("filePath", VStr "")]).
  { unfold otherFieldsAccept, fieldsAccept. simpl.
    repeat constructor; eexists; reflexivity. }
  split.
  - intros HA.
    apply (H1 getDependentsParamsSchema _ (or_intror (or_introl eq_refl)) O1) in HA.
    destruct HA as (s & E & Hs). injection E as <-. simpl in Hs. lia.
  - intros HA. apply (H2 _ O2) in HA.
    destruct HA as [E|(s & E & Hs)]; [discriminate|].
    injection E as <-. simpl in Hs. lia.
Defined.

(** X8.  The seven parameter schemas without a required key accept every
    object that leaves all their declared keys undefined (the empty object
    among them), whatever other keys it carries; searchSymbols,
    getDependencies and getDependents reject every object whose [query],
    respectively [filePath], is undefined.  No schema asks for a symbol
    identifier: neither [symbolId] nor [symbolName] with [filePath] is
    required by getSymbolDetails, traceSymbolUsage, getCallGraph or
    impactAnalysis. *)
Theorem required_keys_of_params :
  (forall schema data,
      In schema paramsWithoutRequiredKey ->
      (forall k, field (shapeOf schema) k <> None -> get data k = VUndefined) ->
      accepts schema (VObj data))
  /\ (forall schema k data,
        In (schema, k) paramsWithRequiredKey ->
        get data k = VUndefined ->
        rejects schema (VObj data)).
Proof.
  assert (G : forall shape data,
             forallb (fun entry => succeeds (z.safeParse (snd entry) VUndefined))
               shape = true ->
             (forall k, field shape k <> None -> get data k = VUndefined) ->
             accepts (z.object shape) (VObj data)).
  { intros shape data W H. apply accepts_strip.
    unfold fieldsAccept. rewrite Forall_forall. intros [k t] HI.
    rewrite forallb_forall in W. specialize (W (k, t) HI). simpl in *.
    rewrite (H k (In_field_defined shape k t HI)).
    destruct (z.safeParse t VUndefined) as [d|js] eqn:E; [|discriminate].
    exists d. exact E. }
  split.
  - intros schema data HI. simpl in HI.
    repeat (destruct HI as [<-|HI]; [apply G; reflexivity|]).
    contradiction.
  - intros schema k data HI E. simpl in HI.
    destruct HI as [HI|[HI|[HI|[]]]]; apply pair_equal_spec in HI as [<- <-].
    + apply (keyed_object_rejects (shapeOf searchSymbolsParamsSchema) data
               "query" (z.string |> z.min 1 |> z.max 200) eq_refl).
      rewrite E. intros [d H]. discriminate.
    + apply (keyed_object_rejects (shapeOf getDependenciesParamsSchema) data
               "filePath" (z.string |> z.min 1) eq_refl).
      rewrite E. intros [d H]. discriminate.
    + apply (keyed_object_rejects (shapeOf getDependentsParamsSchema) data
               "filePath" (z.string |> z.min 1) eq_refl).
      rewrite E. intros [d H]. discriminate.
Qed.

(** getSymbolDetails accepts an object that names no symbol at all, and
    searchSymbols rejects an object without a query. *)
Lemma required_keys_of_params_witness :
  accepts getSymbolDetailsParamsSchema (VObj [("verbose", VBool true)])
  /\ rejects searchSymbolsParamsSchema (VObj [("limit", num 10)]).
Proof.
  destruct required_keys_of_params as (H1 & H2).
  split.
  - apply H1.
    + left. reflexivity.
    + intros k. cbn [shapeOf getSymbolDetailsParamsSchema z.object field].
      unfold get. cbn [lookup].
      repeat match goal with
             | |- context [String.eqb k ?s] =>
                 destruct (String.eqb_spec k s) as [->|?]; [reflexivity|]
             end.
      intros Hk. exfalso. apply Hk. reflexivity.
  - apply (H2 _ "query"); [left|]; reflexivity.
Defined.

(* ================================================================= *)
(** ** File locations and their extensions *)

(** X9.  [fileLocationSchema] accepts exactly the objects with a string
    [filePath], with [line], [lineStart] and [lineEnd] each absent or an
    integer of at least 1, and with [column] absent or an integer of at
    least 0.  The range ends are checked separately: a location whose
    [lineStart] lies after its [lineEnd] is accepted. *)
Theorem file_location_accepts :
  (forall v,
      accepts fileLocationSchema v
      <-> exists loc,
            v = VObj loc
            /\ isString (get loc "filePath")
            /\ (get loc "line" = VUndefined \/ positiveInt (get loc "line"))
            /\ (get loc "lineStart" = VUndefined \/ positiveInt (get loc "lineStart"))
            /\ (get loc "lineEnd" = VUndefined \/ positiveInt (get loc "lineEnd"))
            /\ (get loc "column" = VUndefined \/ nonnegativeInt (get loc "column")))
  /\ (forall path a b,
        1 <= a -> 1 <= b ->
        accepts fileLocationSchema
          (VObj [("filePath", VStr path); ("lineStart", num a); ("lineEnd", num b)])).
Proof.
  assert (G : forall v,
      accepts fileLocationSchema v
      <-> exists loc,
            v = VObj loc
            /\ isString (get loc "filePath")
            /\ (get loc "line" = VUndefined \/ positiveInt (get loc "line"))
            /\ (get loc "lineStart" = VUndefined \/ positiveInt (get loc "lineStart"))
            /\ (get loc "lineEnd" = VUndefined \/ positiveInt (get loc "lineEnd"))
            /\ (get loc "column" = VUndefined \/ nonnegativeInt (get loc "column"))).
  { intros v. unfold fileLocationSchema, z.object, positiveInt.
    rewrite accepts_object.
    split; intros (loc & -> & H); exists loc; (split; [reflexivity|]).
    - destruct H as [H _]. revert H. fields_unfold.
      rewrite !accepts_optional, !accepts_positive_int, accepts_nonnegative_int,
        accepts_string. tauto.
    - split; [|reflexivity]. revert H. fields_unfold.
      rewrite !accepts_optional, !accepts_positive_int, accepts_nonnegative_int,
        accepts_string. tauto. }
  split; [exact G|].
  intros path a b Ha Hb. apply G. eexists. split; [reflexivity|].
  unfold get. simpl. repeat split; auto.
  - exists path. reflexivity.
  - right. exists a. split; [apply isInt_num | exact Ha].
  - right. exists b. split; [apply isInt_num | exact Hb].
Qed.

(** Lines 9 to 2 of a file form an accepted location. *)
Lemma file_location_accepts_witness :
  accepts fileLocationSchema
    (VObj [("filePath", VStr "src/a.ts"); ("lineStart", num 9); ("lineEnd", num 2)]).
Proof.
  destruct file_location_accepts as (_ & H). apply H; lia.
Defined.

Section Extend.

Lemma fieldsAccept_app (l1 l2 : list (string * z.ZodType)) (data : JS.object) :
  fieldsAccept (l1 ++ l2) data <-> fieldsAccept l1 data /\ fieldsAccept l2 data.
Proof. unfold fieldsAccept. apply Forall_app. Qed.

(** Extending by keys the base does not have appends them. *)
Lemma extend_new_keys (shape augmentation : list (string * z.ZodType))
    (unknownKeys : z.UnknownKeysParam) :
  (forall k t, In (k, t) augmentation -> field shape k = None) ->
  (forall k t, In (k, t) shape -> field augmentation k = None) ->
  z.extend augmentation (z.ZodObject shape unknownKeys)
  = z.ZodObject (shape ++ augmentation) unknownKeys.
Proof.
  intros H1 H2. simpl. f_equal. f_equal.
  - rewrite <- (map_id shape) at 2. apply map_ext_in. intros [k t] HI. simpl.
    specialize (H2 k t HI).
    destruct (find (fun a => String.eqb (fst a) k) augmentation) as [[k' t']|] eqn:E;
      [|reflexivity].
    apply find_some in E as [E1 E2]. simpl in E2. apply String.eqb_eq in E2.
    subst k'. apply In_field_defined in E1. contradiction.
  - apply forallb_filter_id. apply forallb_forall. intros [k t] HI. simpl.
    apply negb_true_iff. apply field_None. exact (H1 k t HI).
Qed.

Lemma extend_new_keys_accepts (shape augmentation : list (string * z.ZodType))
    (v : JS.value) :
  (forall k t, In (k, t) augmentation -> field shape k = None) ->
  (forall k t, In (k, t) shape -> field augmentation k = None) ->
  accepts (z.object shape |> z.extend augmentation) v
  <-> accepts (z.object shape) v /\ accepts (z.object augmentation) v.
Proof.
  intros H1 H2. unfold z.object. rewrite (extend_new_keys _ _ _ H1 H2).
  rewrite !accepts_object. split.
  - intros (data & -> & H & _). apply fieldsAccept_app in H as [Ha Hb].
    split; exists data; auto.
  - intros [(data & -> & Ha & _) (data' & E & Hb & _)]. injection E as <-.
    exists data. repeat split. apply fieldsAccept_app. auto.
Qed.

End Extend.

(** X10.  Each schema written as [fileLocationSchema.extend({...})]
    (symbolReferenceSchema, symbolUsageReferenceSchema,
    impactedSymbolSchema) accepts only values that [fileLocationSchema]
    accepts; and [symbolReferenceSchema] accepts exactly the accepted file
    locations whose [symbolId], [symbolName] and [symbolKind] are each
    absent or a string. *)
Theorem file_location_extensions :
  (forall schema v,
      In schema fileLocationExtensions ->
      accepts schema v -> accepts fileLocationSchema v)
  /\ (forall v,
        accepts symbolReferenceSchema v
        <-> accepts fileLocationSchema v
            /\ exists ref,
                 v = VObj ref
                 /\ optionalString (get ref "symbolId")
                 /\ optionalString (get ref "symbolName")
                 /\ optionalString (get ref "symbolKind")).
Proof.
  assert (N : forall augmentation,
             forallb (fun entry =>
                        match field (shapeOf fileLocationSchema) (fst entry) with
                        | None => true
                        | Some _ => false
                        end) augmentation = true ->
             forallb (fun entry =>
                        match field augmentation (fst entry) with
                        | None => true
                        | Some _ => false
                        end) (shapeOf fileLocationSchema) = true ->
             forall v,
               accepts (fileLocationSchema |> z.extend augmentation) v
               <-> accepts fileLocationSchema v /\ accepts (z.object augmentation) v).
  { intros augmentation W1 W2 v.
    rewrite forallb_forall in W1, W2.
    apply (extend_new_keys_accepts (shapeOf fileLocationSchema) augmentation v).
    - intros k t HI. specialize (W1 (k, t) HI). cbn [fst] in W1.
      destruct (field (shapeOf fileLocationSchema) k); [discriminate | reflexivity].
    - intros k t HI. specialize (W2 (k, t) HI). cbn [fst] in W2.
      destruct (field augmentation k); [discriminate | reflexivity]. }
  split.
  - intros schema v HI. simpl in HI.
    destruct HI as [<-|[<-|[<-|[]]]]; intros HA; apply N in HA;
      try reflexivity; tauto.
  - intros v. unfold symbolReferenceSchema. rewrite N; [|reflexivity|reflexivity].
    unfold z.object. rewrite accepts_object. unfold optionalString.
    split; intros [HF (ref & -> & H)]; (split; [exact HF|]); exists ref;
      (split; [reflexivity|]).
    + destruct H as [H _]. revert H. fields_unfold.
      rewrite !accepts_optional, !accepts_string. tauto.
    + split; [|reflexivity]. revert H. fields_unfold.
      rewrite !accepts_optional, !accepts_string. tauto.
Qed.

(** An impacted symbol that is accepted is an accepted file location. *)
Lemma file_location_extensions_witness :
  accepts fileLocationSchema
    (VObj [("filePath", VStr "src/a.ts"); ("line", num 3); ("id", VStr "s1");
           ("name", VStr "run"); ("qualifiedName", VStr "a.run");
           ("kind", VStr "function"); ("relationshipType", VStr "CALLS");
           ("depth", num 1)]).
Proof.
  destruct file_location_extensions as (H & _).
  apply (H impactedSymbolSchema).
  - simpl. tauto.
  - eexists. reflexivity.
Defined.

(* ================================================================= *)
(** ** The success envelope and the guards *)

Section Envelope.

Lemma strictEquals_bool (v : JS.value) (b : bool) :
  strictEquals v (VBool b) = true <-> v = VBool b.
Proof.
  split.
  - destruct v as [| |b'|n| | |]; simpl; try discriminate;
      try (destruct n; discriminate).
    intros H. apply Bool.eqb_prop in H. congruence.
  - intros ->. simpl. apply Bool.eqb_reflx.
Qed.

Lemma apiResponseSchema_accepts (dataSchema : z.ZodType) (r : JS.object) :
  accepts (apiResponseSchema dataSchema) (VObj r)
  <-> get r "success" = VBool true /\ accepts dataSchema (get r "data").
Proof.
  unfold apiResponseSchema. rewrite accepts_strip. fields_unfold.
  rewrite accepts_literal_bool. tauto.
Qed.

End Envelope.

(** X11.  [apiResponseSchema(dataSchema)] accepts an object exactly when
    its [success] is [true] and [dataSchema] accepts its [data].  Every
    object it accepts is an [ApiResponse] on which [isSuccessResponse]
    holds and [isErrorResponse] does not, and every object on which
    [isErrorResponse] holds is rejected by it. *)
Theorem api_response_schema_and_guards (dataSchema : z.ZodType) (r : JS.object) :
  (accepts (apiResponseSchema dataSchema) (VObj r)
   <-> get r "success" = VBool true /\ accepts dataSchema (get r "data"))
  /\ (accepts (apiResponseSchema dataSchema) (VObj r) ->
      ApiResponse (accepts dataSchema) r
      /\ isSuccessResponse r = true
      /\ isErrorResponse r = false)
  /\ (isErrorResponse r = true ->
      rejects (apiResponseSchema dataSchema) (VObj r)).
Proof.
  pose proof (apiResponseSchema_accepts dataSchema r) as G.
  split; [exact G|]. split.
  - intros HA. apply G in HA as [HS HD]. split; [|split].
    + apply api_success; assumption.
    + unfold isSuccessResponse. rewrite HS. reflexivity.
    + unfold isErrorResponse. rewrite HS. reflexivity.
  - intros HE. apply rejects_iff. intros HA. apply G in HA as [HS _].
    unfold isErrorResponse in HE. apply strictEquals_bool in HE. congruence.
Qed.

(** A success envelope around a ping result is accepted and recognised
    by the guard. *)
Lemma api_response_schema_witness :
  isSuccessResponse [("success", VBool true); ("data", VObj [("pong", VBool true)])]
  = true.
Proof.
  destruct (api_response_schema_and_guards pingResultSchema
              [("success", VBool true); ("data", VObj [("pong", VBool true)])])
    as (_ & H & _).
  apply H. eexists. reflexivity.
Defined.

(* ================================================================= *)
(** ** Cycles and relationship directions in results *)

(** X12.  [circularDependencyCycleSchema] accepts exactly the objects
    whose [files] is an array of strings, whose [length] is an integer of
    at least 1, whose [impactScore] is absent or a finite number from 0
    to 100 (integer or not), and whose [severity] is low, medium, high or
    critical.  [length] is not compared with [files]: any list of files
    goes with any positive length. *)
Theorem circular_cycle_accepts :
  (forall v,
      accepts circularDependencyCycleSchema v
      <-> exists c,
            v = VObj c
            /\ (exists files,
                   get c "files" = VArr files /\ Forall isString files)
            /\ positiveInt (get c "length")
            /\ (get c "impactScore" = VUndefined
                \/ exists q, get c "impactScore" = VNum (Finite q)
                             /\ (inject_Z 0 <= q <= inject_Z 100)%Q)
            /\ (exists s, get c "severity" = VStr s
                          /\ In s ["low"; "medium"; "high"; "critical"]))
  /\ (forall files n,
        Forall isString files ->
        1 <= n ->
        accepts circularDependencyCycleSchema
          (VObj [("files", VArr files); ("length", num n); ("severity", VStr "low")])).
Proof.
  assert (S : forall l, Forall (accepts z.string) l <-> Forall isString l).
  { intros l. split; apply Forall_impl; intros a; apply accepts_string. }
  assert (G : forall v,
      accepts circularDependencyCycleSchema v
      <-> exists c,
            v = VObj c
            /\ (exists files,
                   get c "files" = VArr files /\ Forall isString files)
            /\ positiveInt (get c "length")
            /\ (get c "impactScore" = VUndefined
                \/ exists q, get c "impactScore" = VNum (Finite q)
                             /\ (inject_Z 0 <= q <= inject_Z 100)%Q)
            /\ (exists s, get c "severity" = VStr s
                          /\ In s ["low"; "medium"; "high"; "critical"])).
  { intros v. unfold circularDependencyCycleSchema, z.object, positiveInt, riskLevelSchema.
    rewrite accepts_object.
    split; intros (c & -> & H); exists c; (split; [reflexivity|]).
    - destruct H as [H _]. revert H. fields_unfold.
      rewrite accepts_optional, accepts_positive_int, accepts_number_range,
        accepts_array, accepts_enum.
      intros ((files & E & HF) & H2 & H3 & H4 & _).
      repeat split; auto. exists files. split; [exact E | apply S; exact HF].
    - split; [|reflexivity]. revert H. fields_unfold.
      rewrite accepts_optional, accepts_positive_int, accepts_number_range,
        accepts_array, accepts_enum.
      intros ((files & E & HF) & H2 & H3 & H4).
      repeat split; auto. exists files. split; [exact E | apply S; exact HF]. }
  split; [exact G|].
  intros files n HF Hn. apply G. eexists. split; [reflexivity|].
  unfold get. simpl. repeat split.
  - exists files. auto.
  - exists n. split; [apply isInt_num | exact Hn].
  - left. reflexivity.
  - exists "low". simpl. auto.
Qed.

(** Two files with a stated length of 7, and a half-point impact score. *)
Lemma circular_cycle_accepts_witness :
  accepts circularDependencyCycleSchema
    (VObj [("files", VArr [VStr "a.ts"; VStr "b.ts"]); ("length", num 7);
           ("severity", VStr "low")])
  /\ accepts circularDependencyCycleSchema
       (VObj [("files", VArr []); ("length", num 2);
              ("impactScore", VNum (Finite (1 # 2))); ("severity", VStr "high")]).
Proof.
  destruct circular_cycle_accepts as (HG & HL).
  split.
  - apply HL; [|lia]. repeat constructor; eexists; reflexivity.
  - apply HG. eexists. split; [reflexivity|]. unfold get. simpl.
    split; [exists []; split; [reflexivity | constructor]|].
    split; [exists 2; split; [apply isInt_num | lia]|].
    split.
    + right. exists (1 # 2)%Q. split; [reflexivity|].
      split; unfold Qle; simpl; lia.
    + exists "high". simpl. auto.
Defined.

(** X13.  For every item schema, [relationshipDirectionsSchema(item)]
    accepts exactly the objects whose [outgoing] and [incoming] are both
    arrays of values that the item schema accepts; neither key may be
    left out, and either array may be empty.
    [stringRelationshipDirectionsSchema] is the instance at [z.string()]. *)
Theorem relationship_directions_accepts (itemSchema : z.ZodType) (v : JS.value) :
  (accepts (relationshipDirectionsSchema itemSchema) v
   <-> exists r outgoing incoming,
         v = VObj r
         /\ get r "outgoing" = VArr outgoing
         /\ get r "incoming" = VArr incoming
         /\ Forall (accepts itemSchema) outgoing
         /\ Forall (accepts itemSchema) incoming)
  /\ z.safeParse stringRelationshipDirectionsSchema v
     = z.safeParse (relationshipDirectionsSchema z.string) v.
Proof.
  split; [|reflexivity].
  unfold relationshipDirectionsSchema, z.object. rewrite accepts_object. split.
  - intros (r & -> & H & _). revert H. fields_unfold. rewrite !accepts_array.
    intros ((outgoing & E1 & H1) & (incoming & E2 & H2) & _).
    exists r, outgoing, incoming. auto.
  - intros (r & outgoing & incoming & -> & E1 & E2 & H1 & H2).
    exists r. split; [reflexivity|]. split; [|reflexivity].
    fields_unfold. rewrite !accepts_array. eauto 10.
Qed.

(* ================================================================= *)
(** ** Facts about [any], [nullable] and [record] *)

Section ExtendedFacts.

Lemma xfailure_nonempty (schema : zx.ZodType) :
  forall input issues,
    zx.safeParse schema input = z.Failure issues -> issues <> [].
Proof.
  induction schema; intros input issues H; simpl in H.
  - eapply failure_nonempty; eassumption.
  - discriminate.
  - destruct input; try discriminate; eapply IHschema; eassumption.
  - destruct input; try discriminate; eapply IHschema; eassumption.
  - destruct input; try (injection H as <-; discriminate).
    eapply finish_failure; eassumption.
  - destruct input; try (injection H as <-; discriminate).
    eapply finish_failure; eassumption.
Qed.

Lemma xissuesOf_nil (schema : zx.ZodType) (input : JS.value) :
  z.issuesOf (zx.safeParse schema input) = [] <-> xaccepts schema input.
Proof.
  unfold xaccepts.
  destruct (zx.safeParse schema input) as [d|js] eqn:E; simpl; split.
  - eauto.
  - reflexivity.
  - intros ->. exfalso. eapply xfailure_nonempty; eauto.
  - intros [d H]; discriminate.
Qed.

Lemma xaccepts_core (schema : z.ZodType) (v : JS.value) :
  xaccepts (zx.core schema) v <-> accepts schema v.
Proof. reflexivity. Qed.

Lemma xaccepts_nullable (t : zx.ZodType) (v : JS.value) :
  xaccepts (t |> zx.nullable) v <-> v = VNull \/ xaccepts t v.
Proof.
  unfold xaccepts. simpl. split.
  - intros [d H]. destruct v; eauto.
  - intros [-> | [d H]]; [eauto|]. destruct v; eauto.
Qed.

Lemma xaccepts_optional (t : zx.ZodType) (v : JS.value) :
  xaccepts (t |> zx.optional) v <-> v = VUndefined \/ xaccepts t v.
Proof.
  unfold xaccepts. simpl. split.
  - intros [d H]. destruct v; eauto.
  - intros [-> | [d H]]; [eauto|]. destruct v; eauto.
Qed.

Lemma xaccepts_any_optional (v : JS.value) : xaccepts (zx.any |> zx.optional) v.
Proof. unfold xaccepts. simpl. destruct v; eauto. Qed.

Lemma xpairIssues_nil (shape : list (string * zx.ZodType)) (data : JS.object) :
  z.pairIssues
    (map (fun entry : string * zx.ZodType =>
            (fst entry, zx.safeParse (snd entry) (get data (fst entry)),
             has data (fst entry))) shape) = []
  <-> xfieldsAccept shape data.
Proof.
  unfold xfieldsAccept, z.pairIssues.
  induction shape as [|[k t] rest IH]; simpl.
  - split; auto.
  - split.
    + intros H. apply app_eq_nil in H as [H1 H2].
      constructor; [apply xissuesOf_nil; exact H1 | apply IH; exact H2].
    + intros H. inversion H as [|? ? H1 H2]; subst.
      apply xissuesOf_nil in H1. simpl in H1. rewrite H1. simpl.
      apply IH; exact H2.
Qed.

Lemma xaccepts_object (shape : list (string * zx.ZodType)) (v : JS.value) :
  xaccepts (zx.object shape) v
  <-> exists data, v = VObj data /\ xfieldsAccept shape data.
Proof.
  unfold xaccepts at 1. split.
  - intros [out H]. destruct v; try discriminate. exists props.
    split; [reflexivity|]. cbn [zx.object zx.safeParse] in H.
    apply finish_success in H as [H _]. apply app_eq_nil in H as [H _].
    apply xpairIssues_nil. exact H.
  - intros (data & -> & H). eexists. cbn [zx.object zx.safeParse].
    apply finish_success. split; [|reflexivity].
    apply xpairIssues_nil in H. rewrite H. reflexivity.
Qed.

Lemma ownKeys_In (o : JS.object) (k : string) :
  In k (ownKeys o) <-> has o k = true.
Proof.
  unfold has. induction o as [|[k' v] rest IH]; simpl.
  - split; [tauto | discriminate].
  - destruct (String.eqb_spec k k') as [->|N].
    + split; auto.
    + rewrite filter_In, IH. split.
      * intros [E|[H _]]; [congruence | exact H].
      * intros H. right. split; [exact H|].
        apply negb_true_iff. apply String.eqb_neq. exact N.
Qed.

(** A record keyed by [z.string()] accepts the objects all of whose
    property values the value type accepts. *)
Lemma xaccepts_record (valueType : zx.ZodType) (v : JS.value) :
  xaccepts (zx.record z.string valueType) v
  <-> exists data,
        v = VObj data
        /\ forall k, has data k = true -> xaccepts valueType (get data k).
Proof.
  assert (G : forall data l,
             zx.recordIssues
               (map (fun key =>
                       (z.safeParse z.string (VStr key),
                        zx.safeParse valueType (get data key))) l) = []
             <-> Forall (fun k => xaccepts valueType (get data k)) l).
  { intros data l. unfold zx.recordIssues.
    induction l as [|k l IH]; simpl.
    - split; auto.
    - split.
      + intros H. apply app_eq_nil in H as [H1 H2].
        constructor; [apply xissuesOf_nil; exact H1 | apply IH; exact H2].
      + intros H. inversion H as [|? ? H1 H2]; subst.
        apply xissuesOf_nil in H1. rewrite H1. simpl. apply IH; exact H2. }
  unfold xaccepts at 1. split.
  - intros [out H]. destruct v; try discriminate. exists props.
    split; [reflexivity|]. cbn [zx.record zx.safeParse] in H.
    apply finish_success in H as [H _]. apply G in H.
    rewrite Forall_forall in H. intros k Hk. apply H. apply ownKeys_In. exact Hk.
  - intros (data & -> & H). eexists. cbn [zx.record zx.safeParse].
    apply finish_success. split; [|reflexivity]. apply G.
    rewrite Forall_forall. intros k Hk. apply H. apply ownKeys_In. exact Hk.
Qed.

End ExtendedFacts.

(** As [fields_unfold], for a shape of [zx]. *)
Ltac xfields_unfold :=
  unfold xfieldsAccept;
  repeat rewrite Forall_cons_iff;
  rewrite Forall_nil_iff;
  cbn [fst snd].

(* ================================================================= *)
(** ** The error envelope *)

(** X14.  [apiErrorResponseSchema] accepts an object exactly when its
    [success] is [false] and its [error] is an object with a string
    [code] and a string [message] ([details] may be anything or absent).
    On every object it accepts [isErrorResponse] holds and
    [isSuccessResponse] does not; no object is accepted by both
    [apiResponseSchema(dataSchema)] and [apiErrorResponseSchema]; and the
    two schemas together accept exactly the objects of type
    [ApiResponse<T>], [T] being what [dataSchema] accepts. *)
Theorem api_error_schema_and_guards (dataSchema : z.ZodType) (r : JS.object) :
  (xaccepts apiErrorResponseSchema (VObj r)
   <-> get r "success" = VBool false
       /\ exists error,
            get r "error" = VObj error
            /\ isString (get error "code")
            /\ isString (get error "message"))
  /\ (xaccepts apiErrorResponseSchema (VObj r) ->
      isErrorResponse r = true /\ isSuccessResponse r = false)
  /\ ~ (accepts (apiResponseSchema dataSchema) (VObj r)
        /\ xaccepts apiErrorResponseSchema (VObj r))
  /\ (ApiResponse (accepts dataSchema) r
      <-> accepts (apiResponseSchema dataSchema) (VObj r)
          \/ xaccepts apiErrorResponseSchema (VObj r)).
Proof.
  assert (G : xaccepts apiErrorResponseSchema (VObj r)
              <-> get r "success" = VBool false
                  /\ exists error,
                       get r "error" = VObj error
                       /\ isString (get error "code")
                       /\ isString (get error "message")).
  { unfold apiErrorResponseSchema. rewrite xaccepts_object. split.
    - intros (data & E & H). injection E as <-. revert H. xfields_unfold.
      rewrite xaccepts_core, accepts_literal_bool, xaccepts_object.
      intros (HS & (error & HE & H) & _). split; [exact HS|].
      exists error. split; [exact HE|]. revert H. xfields_unfold.
      rewrite !xaccepts_core, !accepts_string. tauto.
    - intros (HS & error & HE & HC & HM). exists r. split; [reflexivity|].
      xfields_unfold. rewrite xaccepts_core, accepts_literal_bool, xaccepts_object.
      split; [exact HS|]. split; [|exact I].
      exists error. split; [exact HE|]. xfields_unfold.
      rewrite !xaccepts_core, !accepts_string.
      repeat split; auto. apply xaccepts_any_optional. }
  pose proof (apiResponseSchema_accepts dataSchema r) as GS.
  split; [exact G|]. split; [|split].
  - intros HA. apply G in HA as [HS _].
    unfold isErrorResponse, isSuccessResponse. rewrite HS. auto.
  - intros [HA HB]. apply GS in HA as [HS _]. apply G in HB as [HF _]. congruence.
  - split.
    + intros HR.
      inversion HR as [r' HS HD E|r' error code message HS HE HC HM E]; subst r'.
      * left. apply GS. auto.
      * right. apply G. split; [exact HS|]. exists error.
        split; [exact HE|]. split; [exists code | exists message]; assumption.
    + intros [HA|HB].
      * apply GS in HA as [HS HD]. apply api_success; assumption.
      * apply G in HB as (HS & error & HE & [code HC] & [message HM]).
        exact (api_error _ r error code message HS HE HC HM).
Qed.

(** A not-found error with structured details is accepted and recognised
    as an error. *)
Lemma api_error_schema_witness :
  isErrorResponse
    [("success", VBool false);
     ("error", VObj [("code", VStr "NOT_FOUND"); ("message", VStr "no such file");
                     ("details", VObj [("file", VStr "a.ts")])])]
  = true.
Proof.
  destruct (api_error_schema_and_guards z.string
              [("success", VBool false);
               ("error", VObj [("code", VStr "NOT_FOUND");
                               ("message", VStr "no such file");
                               ("details", VObj [("file", VStr "a.ts")])])])
    as (_ & H & _).
  apply H. eexists. reflexivity.
Defined.

(* ================================================================= *)
(** ** Project state, dependencies and import metadata *)

(** X15.  [projectStateSchema] accepts exactly the objects with string
    [projectId], [projectName] and [branch], a nonnegative integer
    [fileCount], an array of strings [languages], and [latestCommit] and
    [lastIndexedAt] each [null] or a string.  The two nullable keys are
    not optional: an object that leaves [latestCommit] or [lastIndexedAt]
    undefined is not accepted. *)
Theorem project_state_accepts :
  (forall v,
      xaccepts projectStateSchema v
      <-> exists st,
            v = VObj st
            /\ isString (get st "projectId")
            /\ isString (get st "projectName")
            /\ isString (get st "branch")
            /\ nullableString (get st "latestCommit")
            /\ nonnegativeInt (get st "fileCount")
            /\ nullableString (get st "lastIndexedAt")
            /\ exists languages,
                 get st "languages" = VArr languages
                 /\ Forall isString languages)
  /\ (forall st,
        get st "latestCommit" = VUndefined \/ get st "lastIndexedAt" = VUndefined ->
        ~ xaccepts projectStateSchema (VObj st)).
Proof.
  assert (S : forall l, Forall (accepts z.string) l <-> Forall isString l).
  { intros l. split; apply Forall_impl; intros a; apply accepts_string. }
  assert (G : forall v,
      xaccepts projectStateSchema v
      <-> exists st,
            v = VObj st
            /\ isString (get st "projectId")
            /\ isString (get st "projectName")
            /\ isString (get st "branch")
            /\ nullableString (get st "latestCommit")
            /\ nonnegativeInt (get st "fileCount")
            /\ nullableString (get st "lastIndexedAt")
            /\ exists languages,
                 get st "languages" = VArr languages
                 /\ Forall isString languages).
  { intros v. unfold projectStateSchema, nullableString. rewrite xaccepts_object.
    split; intros (st & -> & H); exists st; (split; [reflexivity|]).
    - revert H. xfields_unfold.
      rewrite !xaccepts_nullable, !xaccepts_core, !accepts_string,
        accepts_nonnegative_int, accepts_array.
      intros (H1 & H2 & H3 & H4 & H5 & H6 & (l & E & HL) & _).
      repeat split; auto. exists l. split; [exact E | apply S; exact HL].
    - revert H. xfields_unfold.
      rewrite !xaccepts_nullable, !xaccepts_core, !accepts_string,
        accepts_nonnegative_int, accepts_array.
      intros (H1 & H2 & H3 & H4 & H5 & H6 & (l & E & HL)).
      repeat split; auto. exists l. split; [exact E | apply S; exact HL]. }
  split; [exact G|].
  intros st H HA. apply G in HA.
  destruct HA as (st' & E & _ & _ & _ & H4 & _ & H6 & _). injection E as <-.
  destruct H as [H|H]; rewrite H in *.
  - destruct H4 as [E|[s E]]; discriminate.
  - destruct H6 as [E|[s E]]; discriminate.
Qed.

(** A project that was never indexed, with both keys [null]. *)
Lemma project_state_accepts_witness :
  xaccepts projectStateSchema
    (VObj [("projectId", VStr "github.com/acme/app"); ("projectName", VStr "app");
           ("branch", VStr "main"); ("latestCommit", VNull); ("fileCount", num 0);
           ("lastIndexedAt", VNull); ("languages", VArr [])])
  /\ ~ xaccepts projectStateSchema
         (VObj [("projectId", VStr "github.com/acme/app"); ("projectName", VStr "app");
                ("branch", VStr "main"); ("fileCount", num 0);
                ("lastIndexedAt", VNull); ("languages", VArr [])]).
Proof.
  destruct project_state_accepts as (HG & HN).
  split.
  - eexists. reflexivity.
  - apply HN. left. reflexivity.
Defined.

(** X16.  [importResolutionMetadataSchema] accepts exactly the objects
    every property of which holds a value that [importResolutionSchema]
    accepts.  The property names are not examined: they need not be line
    numbers, and the empty object is accepted. *)
Theorem import_resolution_metadata_accepts (v : JS.value) :
  xaccepts importResolutionMetadataSchema v
  <-> exists m,
        v = VObj m
        /\ forall k, has m k = true -> accepts importResolutionSchema (get m k).
Proof.
  unfold importResolutionMetadataSchema. rewrite xaccepts_record.
  split; intros (m & -> & H); exists m; (split; [reflexivity|]);
    intros k Hk; apply xaccepts_core; apply H; exact Hk.
Qed.

(** X17.  [directDependencySchema] accepts exactly the objects whose
    [type] is file or module, whose [filePath] is [null] or a string,
    whose [moduleName] is absent, [null] or a string, whose
    [importedSymbols] is absent or an array of strings, and whose
    [isDefault] and [isNamespace] are booleans.  [filePath] may be [null]
    but not left out, and [type] is not compared with [filePath] or
    [moduleName]. *)
Theorem direct_dependency_accepts (v : JS.value) :
  xaccepts directDependencySchema v
  <-> exists dep,
        v = VObj dep
        /\ (exists s, get dep "type" = VStr s /\ In s ["file"; "module"])
        /\ nullableString (get dep "filePath")
        /\ (get dep "moduleName" = VUndefined \/ nullableString (get dep "moduleName"))
        /\ (get dep "importedSymbols" = VUndefined
            \/ exists symbols,
                 get dep "importedSymbols" = VArr symbols
                 /\ Forall isString symbols)
        /\ isBoolean (get dep "isDefault")
        /\ isBoolean (get dep "isNamespace").
Proof.
  assert (S : forall l, Forall (accepts z.string) l <-> Forall isString l).
  { intros l. split; apply Forall_impl; intros a; apply accepts_string. }
  unfold directDependencySchema, nullableString. rewrite xaccepts_object.
  split; intros (dep & -> & H); exists dep; (split; [reflexivity|]).
  - revert H. xfields_unfold.
    rewrite xaccepts_optional, !xaccepts_nullable, !xaccepts_core, !accepts_string,
      !accepts_boolean, accepts_enum, accepts_optional, accepts_array.
    intros (H1 & H2 & H3 & H4 & H5 & H6 & _).
    repeat split; auto.
    destruct H4 as [E|(l & E & HL)]; [left; exact E|].
    right. exists l. split; [exact E | apply S; exact HL].
  - revert H. xfields_unfold.
    rewrite xaccepts_optional, !xaccepts_nullable, !xaccepts_core, !accepts_string,
      !accepts_boolean, accepts_enum, accepts_optional, accepts_array.
    intros (H1 & H2 & H3 & H4 & H5 & H6).
    repeat split; auto.
    destruct H4 as [E|(l & E & HL)]; [left; exact E|].
    right. exists l. split; [exact E | apply S; exact HL].
Qed.

(* ================================================================= *)
(** ** Facts about the matcher *)

Section MatcherFacts.

Lemma append_assoc (a b c : string) : ((a ++ b) ++ c = a ++ (b ++ c))%string.
Proof. induction a as [|x a IH]; simpl; [reflexivity | rewrite IH; reflexivity]. Qed.

Lemma append_nil_r (a : string) : (a ++ "" = a)%string.
Proof. induction a as [|x a IH]; simpl; [reflexivity | rewrite IH; reflexivity]. Qed.

Lemma append_length (a b : string) :
  String.length (a ++ b) = (String.length a + String.length b)%nat.
Proof. induction a as [|x a IH]; simpl; [reflexivity | rewrite IH; reflexivity]. Qed.

Lemma isEmpty_true (s : string) : re.isEmpty s = true <-> s = "".
Proof. destruct s; simpl; split; (reflexivity || discriminate). Qed.

Lemma stripPrefix_spec (p : string) :
  forall s rest, re.stripPrefix p s = Some rest <-> s = (p ++ rest)%string.
Proof.
  induction p as [|c p IH]; intros s rest; simpl.
  - split; [intros H; injection H as ->; reflexivity | intros ->; reflexivity].
  - destruct s as [|d s]; [split; discriminate|].
    destruct (Ascii.eqb_spec c d) as [->|N].
    + rewrite IH. split; [intros ->; reflexivity | intros H; injection H; auto].
    + split; [discriminate | intros H; injection H; intros; congruence].
Qed.

Lemma matchesAt_true (r : re.RegExp) (st : re.State) :
  re.matchesAt r st = true <-> exists st', In st' (re.run r st).
Proof.
  unfold re.matchesAt. destruct (re.run r st) as [|x l]; split.
  - discriminate.
  - intros [st' []].
  - intros _. exists x. left. reflexivity.
  - reflexivity.
Qed.

Lemma run_Lit (w : string) (st st' : re.State) :
  In st' (re.run (re.Lit w) st)
  <-> snd st = (w ++ snd st')%string /\ fst st' = fst st && re.isEmpty w.
Proof.
  simpl. destruct (re.stripPrefix w (snd st)) as [rest|] eqn:E.
  - apply stripPrefix_spec in E. simpl. split.
    + intros [<-|[]]. simpl. auto.
    + intros [H1 H2]. left. destruct st' as [f' s']. simpl in *.
      rewrite E in H1. f_equal; [auto|].
      clear - H1. induction w as [|c w IH]; simpl in H1; [exact H1|].
      injection H1 as H1. auto.
  - split; [intros []|]. intros [H _]. apply stripPrefix_spec in H. congruence.
Qed.

Lemma run_Seq (a b : re.RegExp) (st st' : re.State) :
  In st' (re.run (re.Seq a b) st)
  <-> exists st1, In st1 (re.run a st) /\ In st' (re.run b st1).
Proof. simpl. apply in_flat_map. Qed.

Lemma run_Alt (a b : re.RegExp) (st st' : re.State) :
  In st' (re.run (re.Alt a b) st)
  <-> In st' (re.run a st) \/ In st' (re.run b st).
Proof. simpl. apply in_app_iff. Qed.

Lemma run_Eos (st st' : re.State) :
  In st' (re.run re.Eos st) <-> st' = st /\ snd st = "".
Proof.
  simpl. destruct (re.isEmpty (snd st)) eqn:E.
  - apply isEmpty_true in E. simpl. split.
    + intros [<-|[]]. auto.
    + intros [-> _]. auto.
  - split; [intros []|]. intros [_ H]. apply isEmpty_true in H. congruence.
Qed.


Lemma in_words_Seq (a b : re.RegExp) (w : string) :
  In w (words (re.Seq a b))
  <-> exists wa wb, In wa (words a) /\ In wb (words b) /\ w = (wa ++ wb)%string.
Proof.
  simpl. rewrite in_flat_map. split.
  - intros (wa & Ha & H). apply in_map_iff in H as (wb & <- & Hb). eauto.
  - intros (wa & wb & Ha & Hb & ->). exists wa. split; [exact Ha|].
    apply in_map. exact Hb.
Qed.

(** A pattern of literal text ends a match exactly after one of its words. *)
Lemma run_plain (r : re.RegExp) :
  plain r = true ->
  forall f s rest,
    (exists f', In (f', rest) (re.run r (f, s)))
    <-> exists w, In w (words r) /\ s = (w ++ rest)%string.
Proof.
  induction r; intros P f s rest; simpl in P; try discriminate.
  - split.
    + intros [f' H]. apply run_Lit in H as [H _]. simpl in H.
      exists chars. simpl. auto.
    + intros (w & [<-|[]] & ->). eexists. apply run_Lit. simpl. split; reflexivity.
  - apply andb_prop in P as [P1 P2]. split.
    + intros [f' H]. apply run_Seq in H as ([f1 s1] & H1 & H2).
      assert (E1 : exists w, In w (words r1) /\ s = (w ++ s1)%string)
        by (apply (IHr1 P1 f s s1); eauto).
      assert (E2 : exists w, In w (words r2) /\ s1 = (w ++ rest)%string)
        by (apply (IHr2 P2 f1 s1 rest); eauto).
      destruct E1 as (wa & Ha & ->). destruct E2 as (wb & Hb & ->).
      exists (wa ++ wb)%string. split; [apply in_words_Seq; eauto|].
      symmetry. apply append_assoc.
    + intros (w & Hw & ->). apply in_words_Seq in Hw as (wa & wb & Ha & Hb & ->).
      rewrite append_assoc.
      destruct (proj2 (IHr1 P1 f (wa ++ (wb ++ rest))%string (wb ++ rest)%string))
        as [f1 H1]; [eauto|].
      destruct (proj2 (IHr2 P2 f1 (wb ++ rest)%string rest)) as [f2 H2]; [eauto|].
      exists f2. apply run_Seq. eauto.
  - apply andb_prop in P as [P1 P2]. split.
    + intros [f' H]. apply run_Alt in H as [H|H].
      * destruct (proj1 (IHr1 P1 f s rest)) as (w & Hw & E); [eauto|].
        exists w. simpl. rewrite in_app_iff. auto.
      * destruct (proj1 (IHr2 P2 f s rest)) as (w & Hw & E); [eauto|].
        exists w. simpl. rewrite in_app_iff. auto.
    + intros (w & Hw & E). simpl in Hw. apply in_app_iff in Hw as [Hw|Hw].
      * destruct (proj2 (IHr1 P1 f s rest)) as [f' H]; [eauto|].
        exists f'. apply run_Alt. auto.
      * destruct (proj2 (IHr2 P2 f s rest)) as [f' H]; [eauto|].
        exists f'. apply run_Alt. auto.
  - split.
    + intros [f' H]. simpl in H. apply in_app_iff in H as [H|[H|[]]].
      * destruct (proj1 (IHr P f s rest)) as (w & Hw & E); [eauto|].
        exists w. simpl. rewrite in_app_iff. auto.
      * injection H as _ <-. exists ""%string. simpl. rewrite in_app_iff.
        split; [right; left; reflexivity | reflexivity].
    + intros (w & Hw & E). simpl in Hw. apply in_app_iff in Hw as [Hw|[<-|[]]].
      * destruct (proj2 (IHr P f s rest)) as [f' H]; [eauto|].
        exists f'. simpl. apply in_app_iff. auto.
      * simpl in E. subst rest. exists f. simpl. apply in_app_iff.
        right. left. reflexivity.
Qed.

(** A pattern of literal alternatives closed by [$] matches at a position
    exactly when the rest of the input is one of its words. *)
Lemma endWords_spec (r : re.RegExp) :
  forall ws,
    endWords r = Some ws ->
    forall f s, re.matchesAt r (f, s) = true <-> In s ws.
Proof.
  induction r; intros ws E f s; simpl in E; try discriminate.
  - injection E as <-. rewrite matchesAt_true. split.
    + intros [st' H]. apply run_Eos in H as [_ H]. simpl in H. left. auto.
    + intros [<-|[]]. exists (f, ""%string). apply run_Eos. auto.
  - destruct (plain r1) eqn:P; [|discriminate].
    destruct (endWords r2) as [wb|] eqn:E2; [|discriminate].
    injection E as <-. rewrite matchesAt_true, in_flat_map. split.
    + intros [st' H]. apply run_Seq in H as ([f1 s1] & H1 & H2).
      destruct (proj1 (run_plain r1 P f s s1)) as (wa & Ha & ->); [eauto|].
      exists wa. split; [exact Ha|]. apply in_map.
      apply (IHr2 wb eq_refl f1 s1). apply matchesAt_true. eauto.
    + intros (wa & Ha & H). apply in_map_iff in H as (w & <- & Hw).
      destruct (proj2 (run_plain r1 P f (wa ++ w)%string w)) as [f1 H1]; [eauto|].
      apply (IHr2 wb eq_refl f1 w) in Hw. apply matchesAt_true in Hw as [st' H2].
      exists st'. apply run_Seq. eauto.
  - destruct (endWords r1) as [wa|] eqn:E1; [|discriminate].
    destruct (endWords r2) as [wb|] eqn:E2; [|discriminate].
    injection E as <-. rewrite in_app_iff, <- (IHr1 wa eq_refl f s),
      <- (IHr2 wb eq_refl f s), !matchesAt_true. split.
    + intros [st' H]. apply run_Alt in H as [H|H]; eauto.
    + intros [[st' H]|[st' H]]; exists st'; apply run_Alt; auto.
Qed.

(** [test] tries every split of the input into what is skipped and what
    is matched. *)
Lemma testFrom_spec (r : re.RegExp) (s : string) :
  forall f,
    re.testFrom r f s = true
    <-> exists before rest,
          s = (before ++ rest)%string
          /\ re.matchesAt r (f && re.isEmpty before, rest) = true.
Proof.
  induction s as [|c s IH]; intros f; simpl.
  - rewrite orb_false_r. split.
    + intros H. exists ""%string, ""%string. simpl. rewrite andb_true_r. auto.
    + intros (before & rest & E & H). destruct before; [|discriminate].
      simpl in E. subst rest. simpl in H. rewrite andb_true_r in H. exact H.
  - rewrite orb_true_iff, IH. split.
    + intros [H|(before & rest & -> & H)].
      * exists ""%string, (String c s). simpl. rewrite andb_true_r. auto.
      * exists (String c before), rest. simpl. rewrite andb_false_r.
        simpl in H. auto.
    + intros (before & rest & E & H). destruct before as [|d before].
      * left. simpl in E. subst rest. simpl in H. rewrite andb_true_r in H. exact H.
      * right. simpl in E. injection E as <- ->. exists before, rest.
        simpl in *. rewrite andb_false_r in H. auto.
Qed.

Lemma test_endWords (r : re.RegExp) (ws : list string) (s : string) :
  endWords r = Some ws ->
  re.test r s = true <-> exists w, In w ws /\ endsWith s w.
Proof.
  intros E. unfold re.test, endsWith. rewrite testFrom_spec. split.
  - intros (before & rest & -> & H). apply (endWords_spec r ws E) in H. eauto.
  - intros (w & Hw & before & ->). exists before, w. split; [reflexivity|].
    apply (endWords_spec r ws E). exact Hw.
Qed.

End MatcherFacts.

(* ================================================================= *)
(** ** Test files and entry points *)

(** X18.  For javascript, typescript, java, kotlin, go, ruby, php,
    csharp, swift, scala and elixir, the test pattern of the language
    matches a path exactly when the path ends with one of the language's
    endings in [testFileEndings] ([.spec.ts], [.test.tsx], [Test.java],
    [_test.go], ...).  Only the ending of the path is looked at: the
    directory and the rest of the file name are free. *)
Theorem test_patterns_are_endings (language : string) (r : re.RegExp)
    (endings : list string) (path : string) :
  In (language, r) TEST_PATTERNS ->
  In (language, endings) testFileEndings ->
  re.test r path = true <-> exists ending, In ending endings /\ endsWith path ending.
Proof.
  intros HP HE. simpl in HE.
  repeat (destruct HE as [HE|HE];
          [apply pair_equal_spec in HE as [<- <-];
           simpl in HP;
           repeat (destruct HP as [HP|HP];
                   [apply pair_equal_spec in HP as [HL <-];
                    try discriminate HL;
                    apply test_endWords; reflexivity|]);
           contradiction|]).
  contradiction.
Qed.

(** [src/auth.spec.ts] is a typescript test file. *)
Lemma test_patterns_are_endings_witness :
  re.test (re.seq [re.Lit "."; re.alt [re.Lit "spec"; re.Lit "test"]; re.Lit ".";
                   re.alt [re.Lit "ts"; re.Lit "tsx"]; re.Eos])
    "src/auth.spec.ts" = true.
Proof.
  apply (test_patterns_are_endings "typescript" _
           [".spec.ts"; ".spec.tsx"; ".test.ts"; ".test.tsx"]).
  - simpl. tauto.
  - simpl. tauto.
  - exists ".spec.ts". split; [simpl; tauto|]. exists "src/auth". reflexivity.
Defined.

(** X19.  For each language of [ENTRY_POINT_PATTERNS], some pattern of the
    language matches a path exactly when the path ends with one of the
    language's endings in [entryPointEndings].  For javascript,
    typescript, go, rust, ruby and php every ending starts with [/], so a
    file at the root, given without a directory ([main.js]), is not an
    entry point. *)
Theorem entry_point_patterns_are_endings (language : string)
    (patterns : list re.RegExp) (endings : list string) (path : string) :
  In (language, patterns) ENTRY_POINT_PATTERNS ->
  In (language, endings) entryPointEndings ->
  (exists r, In r patterns /\ re.test r path = true)
  <-> exists ending, In ending endings /\ endsWith path ending.
Proof.
  assert (G : forall ws,
             (exists r, In r (map (fun w => re.seq [re.Lit w; re.Eos]) ws)
                        /\ re.test r path = true)
             <-> exists ending, In ending ws /\ endsWith path ending).
  { intros ws. split.
    - intros (r & Hr & H). apply in_map_iff in Hr as (w & <- & Hw).
      apply (test_endWords _ [(w ++ "")%string] path) in H; [|reflexivity].
      destruct H as (e & [<-|[]] & HE). rewrite append_nil_r in HE. eauto.
    - intros (w & Hw & HE). exists (re.seq [re.Lit w; re.Eos]).
      split; [exact (in_map (fun w => re.seq [re.Lit w; re.Eos]) ws w Hw)|].
      apply (test_endWords _ [(w ++ "")%string] path); [reflexivity|].
      exists (w ++ "")%string. split; [left; reflexivity|].
      rewrite append_nil_r. exact HE. }
  intros HP HE. simpl in HE.
  repeat (destruct HE as [HE|HE];
          [apply pair_equal_spec in HE as [<- <-];
           simpl in HP;
           repeat (destruct HP as [HP|HP];
                   [apply pair_equal_spec in HP as [HL <-];
                    try discriminate HL;
                    match goal with
                    | |- _ <-> (exists ending, In ending ?ws /\ _) => exact (G ws)
                    end|]);
           contradiction|]).
  contradiction.
Qed.

(** [src/index.ts] is a typescript entry point, and a bare [index.ts] is
    not. *)
Lemma entry_point_patterns_witness :
  (exists r,
      In r [ re.seq [re.Lit "/main.ts"; re.Eos]; re.seq [re.Lit "/index.ts"; re.Eos];
             re.seq [re.Lit "/server.ts"; re.Eos]; re.seq [re.Lit "/app.ts"; re.Eos] ]
      /\ re.test r "src/index.ts" = true)
  /\ ~ (exists r,
          In r [ re.seq [re.Lit "/main.ts"; re.Eos];
                 re.seq [re.Lit "/index.ts"; re.Eos];
                 re.seq [re.Lit "/server.ts"; re.Eos];
                 re.seq [re.Lit "/app.ts"; re.Eos] ]
          /\ re.test r "index.ts" = true).
Proof.
  assert (HP : In ("typescript",
                   [ re.seq [re.Lit "/main.ts"; re.Eos];
                     re.seq [re.Lit "/index.ts"; re.Eos];
                     re.seq [re.Lit "/server.ts"; re.Eos];
                     re.seq [re.Lit "/app.ts"; re.Eos] ]) ENTRY_POINT_PATTERNS)
    by (simpl; tauto).
  assert (HE : In ("typescript", [ "/main.ts"; "/index.ts"; "/server.ts"; "/app.ts" ])
                 entryPointEndings) by (simpl; tauto).
  split.
  - apply (entry_point_patterns_are_endings _ _ _ "src/index.ts" HP HE).
    exists "/index.ts". split; [simpl; tauto|]. exists "src". reflexivity.
  - intros H.
    apply (entry_point_patterns_are_endings _ _ _ "index.ts" HP HE) in H.
    destruct H as (e & He & before & E).
    assert (L : String.length "index.ts"
                = (String.length before + String.length e)%nat)
      by (rewrite E; apply append_length).
    simpl in He. destruct He as [<-|[<-|[<-|[<-|[]]]]]; simpl in L; try lia.
    all: destruct before as [|c [|d before]]; try discriminate; simpl in L; lia.
Defined.

Section DotStar.


(** What [.*] skips has no line terminator. *)
Lemma starLoop_Dot_sound (n : nat) :
  forall st st',
    In st' (re.starLoop (re.run re.Dot) n st) ->
    exists u,
      snd st = (u ++ snd st')%string
      /\ noLineTerminator u = true
      /\ fst st' = fst st && re.isEmpty u.
Proof.
  induction n as [|n IH]; intros st st' H; simpl in H.
  - destruct H as [<-|[]]. exists ""%string. simpl. rewrite andb_true_r. auto.
  - apply in_app_iff in H as [H|[<-|[]]].
    + apply in_flat_map in H as (st1 & H1 & H2).
      destruct st as [f s]. simpl in H1.
      destruct s as [|c s]; [destruct H1|].
      destruct (re.isLineTerminator c) eqn:EC; [destruct H1|].
      destruct H1 as [<-|[]]. simpl in H2.
      destruct (String.length s <? S (String.length s))%nat; [|destruct H2].
      apply IH in H2 as (u & E & HU & HF). simpl in E, HF.
      exists (String c u). simpl. rewrite EC, HU, andb_false_r.
      repeat split; [rewrite E; reflexivity | exact HF].
    + exists ""%string. simpl. rewrite andb_true_r. auto.
Qed.



End DotStar.

(** X20.  The rust test pattern matches a path exactly when the path
    ends with [test.rs] or [tests.rs]: the alternative [.*_test.rs] adds
    nothing, and no separator is asked for before [test], so [latest.rs]
    is classified as a test file. *)
Theorem rust_test_pattern (r : re.RegExp) (path : string) :
  In ("rust", r) TEST_PATTERNS ->
  re.test r path = true <-> endsWith path "test.rs" \/ endsWith path "tests.rs".
Proof.
  intros HP. simpl in HP.
  repeat (destruct HP as [HP|HP];
          [apply pair_equal_spec in HP as [HL HR]; try discriminate HL|]);
    [|contradiction].
  subst r. clear HL. simpl re.seq. simpl re.alt.
  set (A := re.Seq (re.Lit "test") (re.Seq (re.Opt (re.Lit "s")) (re.Lit ".rs"))).
  set (B := re.Seq (re.Star re.Dot) (re.Lit "_test.rs")).
  assert (PA : plain A = true) by reflexivity.
  unfold re.test. rewrite testFrom_spec. split.
  - intros (before & rest & -> & H). apply matchesAt_true in H as [st' H].
    apply run_Seq in H as ([f1 s1] & H1 & H2). apply run_Eos in H2 as [_ H2].
    simpl in H2. subst s1. apply run_Alt in H1 as [H1|H1].
    + destruct (proj1 (run_plain A PA (true && re.isEmpty before) rest ""%string))
        as (w & Hw & E); [eauto|].
      rewrite append_nil_r in E. subst rest.
      simpl in Hw. destruct Hw as [<-|[<-|[]]]; [right|left]; exists before; reflexivity.
    + apply run_Seq in H1 as (st2 & H3 & H4).
      apply run_Lit in H4 as [H4 _]. simpl in H4.
      change (re.run (re.Star re.Dot) ?s)
        with (re.starLoop (re.run re.Dot) (String.length (snd s)) s) in H3.
      apply starLoop_Dot_sound in H3 as (u & E & _ & _). simpl in E.
      left. exists (before ++ u ++ "_")%string. rewrite E, H4.
      rewrite !append_assoc. reflexivity.
  - intros H.
    assert (G : exists before w,
               path = (before ++ w)%string /\ In w ["tests.rs"; "test.rs"]%string).
    { destruct H as [[before ->]|[before ->]]; exists before; eexists;
        (split; [reflexivity|]); simpl; auto. }
    destruct G as (before & w & -> & Hw). exists before, w. split; [reflexivity|].
    apply matchesAt_true.
    destruct (proj2 (run_plain A PA (true && re.isEmpty before) w ""%string))
      as [f' HA].
    { exists w. split; [exact Hw|]. symmetry. apply append_nil_r. }
    exists (f', ""%string). apply run_Seq. exists (f', ""%string).
    split; [apply run_Alt; left; exact HA|]. apply run_Eos. auto.
Qed.

(** [src/latest.rs] is classified as a rust test file. *)
Lemma rust_test_pattern_witness :
  re.test
    (re.seq [re.alt [re.seq [re.Lit "test"; re.Opt (re.Lit "s"); re.Lit ".rs"];
                     re.seq [re.Star re.Dot; re.Lit "_test.rs"]];
             re.Eos])
    "src/latest.rs" = true.
Proof.
  apply rust_test_pattern.
  - simpl. tauto.
  - left. exists "src/la". reflexivity.
Defined.


